(** * Whiteboard modal: the normalized shape store and its handlers

    A shallow embedding of [WhiteboardKonvaModal] (the React component
    holding the modal size, the shape store and the Konva stage) and of
    the payloads [GalleryBar] sends to it.

    Numbers.  A JavaScript [number] is an IEEE double.  The embedding
    keeps the finite values and computes on them exactly, as rationals
    ([Q], compared with [==]); rounding is not modelled, so an equation
    [==] below holds of the code's doubles up to rounding, and a
    comparison decided within rounding distance of its threshold may
    come out the other way there.  [Q] has no
    infinity and no NaN: a quotient [a / b] agrees with JavaScript only
    for [b] different from zero ([Q] returns 0 at [b = 0], JavaScript an
    infinity or NaN).  A statement about the value of a quotient
    carries the positivity of its divisor as a hypothesis, or is about
    the states the widget reaches, where [stage_positive] gives it.  The
    statements that only say where a normalized point goes, and the
    lemmas on the aspect effect, are to be read for a stage, and an
    asset, of non-zero size.

    State.  React state ([useState]) and refs ([useRef]) are the fields
    of [State]; a handler is a function from the event's payload and the
    state to the next state.  A state updater [setShapes (prev => ...)]
    is applied once, to the current store.  What the browser, Konva and
    the file reader contribute (pointer positions, the DOM rectangle,
    the loaded image element, the result of reading a file) arrives as
    part of the event. *)

From Stdlib Require Import QArith Qminmax Qabs Lqa.
From stdpp Require Import base list strings option.

Local Open Scope Q_scope.

(** ** Types and utilities *)

Inductive ToolType :=
| MouseControl | Pen | Highlight | Brush | Square | Circle | Eraser | Save
| ClearAll | Undo | Redo | Arrow | Cursor | Null | Close | Note.

(** The string each member of the TypeScript enum stands for. *)
Definition ToolType_value (t : ToolType) : string :=
  match t with
  | MouseControl => "mouseControl"
  | Pen => "pen"
  | Highlight => "Highlight"
  | Brush => "brush"
  | Square => "square"
  | Circle => "circle"
  | Eraser => "eraser"
  | Save => "save"
  | ClearAll => "clearAll"
  | Undo => "undo"
  | Redo => "redo"
  | Arrow => "arrow"
  | Cursor => "cursor"
  | Null => "null"
  | Close => "Close"
  | Note => "Note"
  end.

Record LineShape := mkLineShape {
  line_tool : ToolType;
  line_color : string;
  line_stroke : Q;
  line_points : list Q;            (* normalized [x1,y1,x2,y2,...] *)
  line_keyOfPage : option string
}.

Record CircleGeom := mkCircleGeom {
  circle_x : Q; circle_y : Q; circle_radius : Q
}.

Record CircleShape := mkCircleShape {
  circ_color : string;
  circ_stroke : Q;
  circ_circle : CircleGeom;        (* normalized *)
  circ_keyOfPage : option string
}.

Record RectGeom := mkRectGeom {
  rectangle_x : Q; rectangle_y : Q; rectangle_width : Q; rectangle_height : Q
}.

Record RectShape := mkRectShape {
  rect_color : string;
  rect_stroke : Q;
  rect_rectangle : RectGeom;       (* normalized *)
  rect_keyOfPage : option string
}.

Record ImageShape := mkImageShape {
  img_src : string;
  img_x : Q;
  img_y : Q;
  img_width : Q;                   (* normalized, per stage width *)
  img_height : Q                   (* normalized, per stage height *)
}.

(** [AnyShape = LineShape | CircleShape | RectShape | ImageShape]. *)
Inductive AnyShape :=
| SLine (l : LineShape)
| SCircle (c : CircleShape)
| SRect (r : RectShape)
| SImage (i : ImageShape).

(** The [tool] field, the discriminant the code tests with [===]. *)
Definition shape_tool (s : AnyShape) : string :=
  match s with
  | SLine l => ToolType_value (line_tool l)
  | SCircle _ => "Circle"
  | SRect _ => "Square"
  | SImage _ => "Image"
  end.

(** [t === ToolType.Pen || t === ToolType.Highlight || t === ToolType.Eraser] *)
Definition is_stroke_tag (t : string) : bool :=
  String.eqb t (ToolType_value Pen)
  || String.eqb t (ToolType_value Highlight)
  || String.eqb t (ToolType_value Eraser).

Definition isStrokeTool (t : ToolType) : bool :=
  is_stroke_tag (ToolType_value t).

(** [a === b] on two members of the enum. *)
Definition tool_is (a b : ToolType) : bool :=
  String.eqb (ToolType_value a) (ToolType_value b).

(** [Math.max(min, Math.min(max, v))] *)
Definition clamp (v min max : Q) : Q := Qmax min (Qmin max v).

Definition denormX (W nx : Q) : Q := nx * W.
Definition denormY (H ny : Q) : Q := ny * H.

(** The loop of [ratioForLine] takes the entries two at a time.  At an
    odd length the last [normalized[i + 1]] is [undefined] and its
    product NaN, which no rational stands for: the result is [None]
    there. *)
Fixpoint ratioForLine (W H : Q) (normalized : list Q) : option (list Q) :=
  match normalized with
  | [] => Some []
  | [_] => None
  | nx :: ny :: rest =>
      match ratioForLine W H rest with
      | Some pts => Some (denormX W nx :: denormY H ny :: pts)
      | None => None
      end
  end.

Definition FOOTER_HEIGHT : Q := 56.
Definition PADDING_H : Q := 40.
Definition PADDING_V : Q := 40.
Definition NAV_BAR_H : Q := 40.
Definition GALLERY_H : Q := 96.

(** [a > b] as the code's conditions use it. *)
Definition Qgtb (a b : Q) : bool := negb (Qle_bool a b).

(** ** Component state *)

Record Size := mkSize { width : Q; height : Q }.

Record State := mkState {
  windowW : Q;                     (* useWindowSize *)
  windowH : Q;
  st_size : Size;                  (* useState size *)
  shapes : list AnyShape;          (* useState shapes *)
  toolActive : ToolType;           (* useState toolActive *)
  isDrawing : bool                 (* isDrawingRef.current *)
}.

Definition set_size (s : Size) (st : State) : State :=
  mkState (windowW st) (windowH st) s (shapes st) (toolActive st) (isDrawing st).
Definition set_window (w h : Q) (st : State) : State :=
  mkState w h (st_size st) (shapes st) (toolActive st) (isDrawing st).
Definition set_shapes (l : list AnyShape) (st : State) : State :=
  mkState (windowW st) (windowH st) (st_size st) l (toolActive st) (isDrawing st).
Definition set_toolActive (t : ToolType) (st : State) : State :=
  mkState (windowW st) (windowH st) (st_size st) (shapes st) t (isDrawing st).
Definition set_isDrawing (b : bool) (st : State) : State :=
  mkState (windowW st) (windowH st) (st_size st) (shapes st) (toolActive st) b.

(** ** Sizing *)

Definition baseWidth (st : State) : Q := Qmax 280 (windowW st - PADDING_H * 2).
Definition baseHeight (st : State) : Q :=
  Qmax 240 (windowH st - FOOTER_HEIGHT - PADDING_V * 2).

(** The drawing area: the modal minus header and gallery. *)
Definition stageH (st : State) : Q :=
  Qmax 0 (height (st_size st) - NAV_BAR_H - GALLERY_H).
Definition stageW (st : State) : Q := width (st_size st).

(** First render: [useState({ width: baseWidth, height: baseHeight })],
    empty store, pen selected, not drawing. *)
Definition initialState (w h : Q) : State :=
  let st0 := mkState w h (mkSize 0 0) [] Pen false in
  set_size (mkSize (baseWidth st0) (baseHeight st0)) st0.

(** The effect on [[baseWidth, baseHeight]]:
    [setSize(prev => ({ width: min(prev.width, baseWidth), ... }))]. *)
Definition sizeEffect (st : State) : State :=
  set_size (mkSize (Qmin (width (st_size st)) (baseWidth st))
                   (Qmin (height (st_size st)) (baseHeight st))) st.

(** A window [resize] event: the hook stores the new viewport, the
    component renders with the new base size and the effect above runs. *)
Definition onViewportChange (w h : Q) (st : State) : State :=
  sizeEffect (set_window w h st).

(** [onResizeStop]; [newW], [newH] are the pixel sizes read back from the
    element's style. *)
Definition onResizeStop (newW newH : Q) (st : State) : State :=
  set_size (mkSize (clamp newW 280 (baseWidth st))
                   (clamp newH 240 (baseHeight st))) st.

(** ** Drawing *)

(** Konva's [Vector2d], what [getPointerPosition] and [position] return. *)
Record Vector2d := mkVector2d { vx : Q; vy : Q }.

(** [pointer] is [stage.getPointerPosition()], [None] for [null]. *)
Definition onMouseDown (pointer : option Vector2d) (st : State) : State :=
  if negb (isStrokeTool (toolActive st)) then st
  else
    let st1 := set_isDrawing true st in
    match pointer with
    | None => st1
    | Some pos =>
        let nx := clamp (vx pos / stageW st) 0 1 in
        let ny := clamp (vy pos / stageH st) 0 1 in
        let color :=
          if tool_is (toolActive st) Highlight
          then "rgba(255,255,0,0.5)"%string else "#222"%string in
        let stroke := if tool_is (toolActive st) Eraser then 24 else 3 in
        set_shapes
          (shapes st ++ [SLine (mkLineShape (toolActive st) color stroke [nx; ny] None)])
          st1
    end.

(** The updater of [onMouseMove].  The write
    [updated[updated.length - 1].points = [...last.points, nx, ny]] goes
    to the object the previous array also holds; the previous array is
    dropped when the updater returns. *)
Definition moveUpdater (W H : Q) (pos : Vector2d) (prev : list AnyShape)
  : list AnyShape :=
  if (length prev =? 0)%nat then prev
  else
    match prev !! (length prev - 1)%nat with
    | None => prev
    | Some last =>
        if is_stroke_tag (shape_tool last) then
          match last with
          | SLine l =>
              let nx := clamp (vx pos / W) 0 1 in
              let ny := clamp (vy pos / H) 0 1 in
              <[(length prev - 1)%nat :=
                 SLine (mkLineShape (line_tool l) (line_color l) (line_stroke l)
                          (line_points l ++ [nx; ny]) (line_keyOfPage l))]> prev
          | _ => prev   (* no other kind carries a stroke tag: [stroke_tag_line] *)
          end
        else prev
    end.

Definition onMouseMove (pointer : option Vector2d) (st : State) : State :=
  if negb (isDrawing st) then st
  else
    match pointer with
    | None => st
    | Some pos => set_shapes (moveUpdater (stageW st) (stageH st) pos (shapes st)) st
    end.

Definition onMouseUp (st : State) : State := set_isDrawing false st.

(** ** Dropping images *)

(** A value of type [unknown] as far as [typeof v === "string"] sees it. *)
Inductive JSValue :=
| JSString (s : string)
| JSNull
| JSUndefined
| JSArrayBuffer.

Record File := mkFile {
  file_type : string;              (* MIME type *)
  file_result : JSValue            (* reader.result once the file is read *)
}.

Record DataTransfer := mkDataTransfer {
  text_plain : string;             (* getData("text/plain") *)
  files : list File
}.

Record DragEvent := mkDragEvent {
  clientX : Q;
  clientY : Q;
  dataTransfer : option DataTransfer
}.

(** The Konva stage behind [stageRef]: [setPointersPositions(e)] followed
    by [getPointerPosition()]. *)
Record KonvaStage := mkKonvaStage {
  pointerPositionAt : DragEvent -> option Vector2d
}.

Definition dropAtPointer (src : string) (stageRef : option KonvaStage)
    (e : DragEvent) (st : State) : State :=
  match stageRef with
  | None => st
  | Some stage =>
      match pointerPositionAt stage e with
      | None => st
      | Some pos =>
          let nx := clamp (vx pos / stageW st) 0 1 in
          let ny := clamp (vy pos / stageH st) 0 1 in
          let nW := 0.25 in
          let nH := 0.25 in
          set_shapes (shapes st ++ [SImage (mkImageShape src nx ny nW nH)]) st
      end
  end.

Record DOMRect := mkDOMRect { dom_left : Q; dom_top : Q }.

(** [window.__dropImageFromUpload]; [rect] is
    [stageContainerRef.current?.getBoundingClientRect()]. *)
Definition dropImageFromUpload (dataUrl : JSValue) (rect : option DOMRect)
    (stageRef : option KonvaStage) (st : State) : State :=
  match dataUrl with
  | JSString s =>
      let centerX := match rect with Some r => dom_left r | None => 0 end + stageW st / 2 in
      let centerY := match rect with Some r => dom_top r | None => 0 end + stageH st / 2 in
      dropAtPointer s stageRef (mkDragEvent centerX centerY None) st
  | _ => st
  end.

(** The [drop] listener of the stage container.  Reading the file ends
    later, in [reader.onload]; the model runs that callback with the
    drop. *)
Definition onDrop (e : DragEvent) (stageRef : option KonvaStage) (st : State)
  : State :=
  match dataTransfer e with
  | None => st
  | Some ds =>
      if negb (String.eqb (text_plain ds) EmptyString) then
        dropAtPointer (text_plain ds) stageRef e st
      else
        match files ds !! 0%nat with
        | Some f =>
            if String.prefix "image/" (file_type f) then
              match file_result f with
              | JSString result => dropAtPointer result stageRef e st
              | _ => st
              end
            else st
        | None => st
        end
  end.

(** [ev.detail] of the [mobile-drag-end] event. *)
Record MobileDetail := mkMobileDetail {
  detail_src : option string;      (* getAttribute may give null *)
  detail_x : Q;
  detail_y : Q
}.

Definition onMobileDrop (detail : option MobileDetail)
    (stageRef : option KonvaStage) (st : State) : State :=
  match detail with
  | None => st
  | Some d =>
      match detail_src d with
      | None => st
      | Some src =>
          if String.eqb src EmptyString then st
          else dropAtPointer src stageRef (mkDragEvent (detail_x d) (detail_y d) None) st
      end
  end.

(** ** Image renderer *)

(** The loaded [HTMLImageElement], as far as the renderer reads it. *)
Record HTMLImageElement := mkImageElement { el_width : Q; el_height : Q }.

Record KonvaImageProps := mkKonvaImageProps {
  ki_x : Q;
  ki_y : Q;
  ki_width : Q;
  ki_height : Q;
  ki_offsetX : Q;
  ki_offsetY : Q;
  ki_draggable : bool
}.

Definition targetW (shape : ImageShape) (W : Q) : Q := img_width shape * W.

(** [imgEl] is [None] until the asset has loaded. *)
Definition desiredHByAspect (shape : ImageShape) (W H : Q)
    (imgEl : option HTMLImageElement) : Q :=
  match imgEl with
  | Some el => targetW shape W * (el_height el / el_width el)
  | None => img_height shape * H
  end.

Definition RenderImageBase (shape : ImageShape) (W H : Q)
    (imgEl : option HTMLImageElement) : KonvaImageProps :=
  let px := img_x shape * W in
  let py := img_y shape * H in
  let targetH := desiredHByAspect shape W H imgEl in
  mkKonvaImageProps px py (targetW shape W) targetH
    (targetW shape W / 2) (targetH / 2) true.

(** [u[index] = { ...img, x: nx, y: ny }].  The cast [as ImageShape] is
    not checked at run time.  Where [index] holds no image JavaScript
    builds an object outside [AnyShape] (a shape of another kind with
    extra fields, or a bare [{x, y}] past the end); the result is [None]
    there. *)
Definition commitPos (index : nat) (nx ny : Q) (prev : list AnyShape)
  : option (list AnyShape) :=
  match prev !! index with
  | Some (SImage img) =>
      Some (<[index := SImage (mkImageShape (img_src img) nx ny
                                 (img_width img) (img_height img))]> prev)
  | _ => None
  end.

(** [u[index] = { ...img, height: nh }], with [None] as in [commitPos]. *)
Definition commitHeightByAspect (index : nat) (nh : Q) (prev : list AnyShape)
  : option (list AnyShape) :=
  match prev !! index with
  | Some (SImage img) =>
      Some (<[index := SImage (mkImageShape (img_src img) (img_x img) (img_y img)
                                 (img_width img) nh)]> prev)
  | _ => None
  end.

(** The effect of [RenderImageBase]: the call of [commitHeightByAspect]
    it makes, if it makes one. *)
Definition aspectEffect (shape : ImageShape) (index : nat) (W H : Q)
    (imgEl : option HTMLImageElement) : option (nat * Q) :=
  match imgEl with
  | None => None
  | Some _ =>
      let nh := desiredHByAspect shape W H imgEl / H in
      if Qgtb (Qabs (nh - img_height shape)) 0.001 then Some (index, nh) else None
  end.

(** [handleDragEnd]; [p] is [ev.target.position()]. *)
Definition handleDragEnd (index : nat) (W H : Q) (p : Vector2d)
    (prev : list AnyShape) : option (list AnyShape) :=
  let nx := clamp (vx p / W) 0 1 in
  let ny := clamp (vy p / H) 0 1 in
  commitPos index nx ny prev.

(** The drag events Konva fires on a draggable node. *)
Inductive DragPhase := DragStart | DragMove | DragEnd.

(** The listeners of the [KonvaImage] element: [onDragEnd] and no other. *)
Definition imageListener (phase : DragPhase) (index : nat) (W H : Q)
  : option (Vector2d -> list AnyShape -> option (list AnyShape)) :=
  match phase with
  | DragEnd => Some (handleDragEnd index W H)
  | DragStart | DragMove => None
  end.

(** The image layer mounts a [RenderImage] at [i] exactly for the
    entries with [s.tool === "Image"]. *)
Definition mountedImage (prev : list AnyShape) (i : nat) : option ImageShape :=
  match prev !! i with
  | Some (SImage img) => Some img
  | _ => None
  end.

(** Konva dispatching a drag event of the image mounted at [index]. *)
Definition onImageDrag (phase : DragPhase) (index : nat) (p : Vector2d)
    (st : State) : State :=
  match mountedImage (shapes st) index with
  | None => st
  | Some _ =>
      match imageListener phase index (stageW st) (stageH st) with
      | None => st
      | Some listener =>
          match listener p (shapes st) with
          | Some u => set_shapes u st
          | None => st
          end
      end
  end.

(** The effect of the image mounted at [index] running with [imgEl]. *)
Definition onImageEffect (index : nat) (imgEl : option HTMLImageElement)
    (st : State) : State :=
  match mountedImage (shapes st) index with
  | None => st
  | Some shape =>
      match aspectEffect shape index (stageW st) (stageH st) imgEl with
      | None => st
      | Some (i, nh) =>
          match commitHeightByAspect i nh (shapes st) with
          | Some u => set_shapes u st
          | None => st
          end
      end
  end.

(** ** Shape layer *)

Record LineProps := mkLineProps {
  lp_points : option (list Q);
  lp_stroke : string;
  lp_strokeWidth : Q;
  lp_tension : Q;
  lp_lineCap : string;
  lp_lineJoin : string;
  lp_draggable : bool;
  lp_globalCompositeOperation : string
}.

Inductive KonvaNode :=
| KLine (p : LineProps)
| KCircle (x y radius : Q) (stroke : string) (strokeWidth : Q)
| KRect (x y w h : Q) (stroke : string) (strokeWidth : Q).

(** The callback of [shapes.map] in the second layer; [None] is [null]. *)
Definition renderShape (W H : Q) (s : AnyShape) : option KonvaNode :=
  match s with
  | SLine l =>
      if is_stroke_tag (shape_tool s) then
        Some (KLine (mkLineProps
          (ratioForLine W H (line_points l))
          (if tool_is (line_tool l) Eraser then "#000"%string else line_color l)
          (line_stroke l)
          0.5 "round" "round" false
          (if tool_is (line_tool l) Eraser
           then "destination-out"%string else "source-over"%string)))
      else None
  | SCircle c =>
      let cx := denormX W (circle_x (circ_circle c)) in
      let cy := denormY H (circle_y (circ_circle c)) in
      let r := denormX W (circle_radius (circ_circle c)) in
      Some (KCircle cx cy r (circ_color c) (circ_stroke c))
  | SRect r =>
      let rx := denormX W (rectangle_x (rect_rectangle r)) in
      let ry := denormY H (rectangle_y (rect_rectangle r)) in
      let rw := denormX W (rectangle_width (rect_rectangle r)) in
      let rh := denormY H (rectangle_height (rect_rectangle r)) in
      Some (KRect rx ry rw rh (rect_color r) (rect_stroke r))
  | SImage _ => None
  end.

(** ** Events *)

(** What can happen to the mounted widget.  [EvSetTool] stands for the
    tool buttons (the markup has Pen and Cursor; any member of the enum
    is allowed here). *)

Inductive Event :=
| EvMouseDown (pointer : option Vector2d)
| EvMouseMove (pointer : option Vector2d)
| EvMouseUp
| EvSetTool (t : ToolType)
| EvDrop (e : DragEvent) (stageRef : option KonvaStage)
| EvUpload (dataUrl : JSValue) (rect : option DOMRect) (stageRef : option KonvaStage)
| EvMobileDrop (detail : option MobileDetail) (stageRef : option KonvaStage)
| EvImageDrag (phase : DragPhase) (index : nat) (p : Vector2d)
| EvImageEffect (index : nat) (imgEl : option HTMLImageElement)
| EvResizeStop (newW newH : Q)
| EvViewport (w h : Q).

Definition step (st : State) (ev : Event) : State :=
  match ev with
  | EvMouseDown pointer => onMouseDown pointer st
  | EvMouseMove pointer => onMouseMove pointer st
  | EvMouseUp => onMouseUp st
  | EvSetTool t => set_toolActive t st
  | EvDrop e stageRef => onDrop e stageRef st
  | EvUpload dataUrl rect stageRef => dropImageFromUpload dataUrl rect stageRef st
  | EvMobileDrop detail stageRef => onMobileDrop detail stageRef st
  | EvImageDrag phase index p => onImageDrag phase index p st
  | EvImageEffect index imgEl => onImageEffect index imgEl st
  | EvResizeStop newW newH => onResizeStop newW newH st
  | EvViewport w h => onViewportChange w h st
  end.

Definition run (st : State) (evs : list Event) : State := foldl step st evs.

(** ** Predicates of the statements *)

Definition in_unit (q : Q) : Prop := 0 <= q <= 1.

(** The modal size within [[280, baseWidth] x [240, baseHeight]]. *)
Definition size_in_bounds (st : State) : Prop :=
  (280 <= width (st_size st) <= baseWidth st)
  /\ (240 <= height (st_size st) <= baseHeight st).

(** The coordinates pointer interaction writes: the points of a stroke,
    and the position and width of an image.  An image's height belongs
    to the aspect effect, which may set it above 1 for a tall asset. *)
Definition coords_in_unit (s : AnyShape) : Prop :=
  match s with
  | SLine l => Forall in_unit (line_points l)
  | SCircle c => in_unit (circle_x (circ_circle c)) /\ in_unit (circle_y (circ_circle c))
  | SRect r => in_unit (rectangle_x (rect_rectangle r)) /\ in_unit (rectangle_y (rect_rectangle r))
  | SImage i => in_unit (img_x i) /\ in_unit (img_y i) /\ in_unit (img_width i)
  end.

(** A stroke holds whole points. *)
Definition shape_wf (s : AnyShape) : Prop :=
  match s with
  | SLine l => Nat.Even (length (line_points l))
  | _ => True
  end.

(** The shapes the handlers create: strokes of the three stroke tools
    and images; nothing creates a circle or a rectangle. *)
Definition handler_made (s : AnyShape) : Prop :=
  match s with
  | SLine l => isStrokeTool (line_tool l) = true
  | SImage _ => True
  | SCircle _ | SRect _ => False
  end.

Definition shape_ok (s : AnyShape) : Prop :=
  coords_in_unit s /\ shape_wf s /\ handler_made s.

Definition Inv (st : State) : Prop :=
  size_in_bounds st /\ Forall shape_ok (shapes st).

(** The normalized point the handlers compute from a pointer position. *)
Definition normalized (W H : Q) (pos : Vector2d) : list Q :=
  [clamp (vx pos / W) 0 1; clamp (vy pos / H) 0 1].

(** Konva places a node's box with its top-left corner at
    [(x - offsetX, y - offsetY)]: the centre of the drawn image. *)
Definition ki_centerX (k : KonvaImageProps) : Q := ki_x k - ki_offsetX k + ki_width k / 2.
Definition ki_centerY (k : KonvaImageProps) : Q := ki_y k - ki_offsetY k + ki_height k / 2.

(** A stroke with its points replaced and every other field kept. *)
Definition line_with_points (l : LineShape) (pts : list Q) : LineShape :=
  mkLineShape (line_tool l) (line_color l) (line_stroke l) pts (line_keyOfPage l).

(** The test [onMouseMove] makes on [prev[prev.length - 1]]. *)
Definition last_is_stroke (prev : list AnyShape) : bool :=
  match prev !! (length prev - 1)%nat with
  | Some last => is_stroke_tag (shape_tool last)
  | None => false
  end.

(** The move events of a gesture, delivered in order. *)
Definition moves_from (st : State) (moves : list (option Vector2d)) : State :=
  foldl (fun s pointer => onMouseMove pointer s) st moves.

(** ** Sample inputs *)

(** A viewport of 880 x 872 gives a modal of 800 x 736 and a stage of
    800 x 600. *)
Definition sample_state : State := initialState 880 872.
Definition sample_pos : Vector2d := mkVector2d 400 300.
Definition sample_moves : list (option Vector2d) :=
  [Some (mkVector2d 900 0); None; Some (mkVector2d (-5) 150)].
Definition sample_stage : KonvaStage :=
  mkKonvaStage (fun e => Some (mkVector2d (clientX e) (clientY e))).
Definition sample_stroke : LineShape :=
  mkLineShape Pen "#222" 3 [0.5; 0.5; 1; 0] None.

(** An asset of intrinsic size 300 x 200 (aspect ratio 3:2), dropped at
    the middle of the sample stage and loaded; then the modal resized to
    800 x 436, which leaves a stage of 800 x 300. *)
Definition sample_asset : HTMLImageElement := mkImageElement 300 200.
Definition sample_loaded : State :=
  run sample_state
    [EvDrop (mkDragEvent 400 300 (Some (mkDataTransfer "a.png" []))) (Some sample_stage);
     EvImageEffect 0 (Some sample_asset)].
Definition sample_resized : State := step sample_loaded (EvResizeStop 800 436).

(** ** Modal position *)

(** [initialPos], the first value of the [position] state: the modal
    centred in the viewport, not left of or above it. *)
Definition initialPos (st : State) : Vector2d :=
  mkVector2d (Qmax 0 ((windowW st - width (st_size st)) / 2))
             (Qmax 0 ((windowH st - height (st_size st)) / 2)).

(** [targetRect] is [draggableRef.current?.getBoundingClientRect()],
    [uiData] the [x], [y] of react-draggable's [DraggableData]; the
    result is the [position] state. *)
Definition onStartModalTableContent (targetRect : option DOMRect)
    (uiData position : Vector2d) : Vector2d :=
  match targetRect with
  | None => position
  | Some _ => mkVector2d (vx uiData) (vy uiData)
  end.

Definition onStopModalTableContent (targetRect : option DOMRect)
    (uiData position : Vector2d) : Vector2d :=
  match targetRect with
  | None => position
  | Some _ => mkVector2d (vx uiData) (vy uiData)
  end.

(** The callbacks react-draggable makes while the header is dragged. *)
Inductive ModalDragEvent :=
| ModalDragStart (targetRect : option DOMRect) (uiData : Vector2d)
| ModalDragStop (targetRect : option DOMRect) (uiData : Vector2d).

Definition modalDrag (position : Vector2d) (ev : ModalDragEvent) : Vector2d :=
  match ev with
  | ModalDragStart targetRect uiData => onStartModalTableContent targetRect uiData position
  | ModalDragStop targetRect uiData => onStopModalTableContent targetRect uiData position
  end.

Definition md_rect (ev : ModalDragEvent) : option DOMRect :=
  match ev with ModalDragStart r _ | ModalDragStop r _ => r end.
Definition md_uiData (ev : ModalDragEvent) : Vector2d :=
  match ev with ModalDragStart _ u | ModalDragStop _ u => u end.

(** ** The two layers *)

(** [shapes.map] of the image layer; [imgEls i] is the element the
    [RenderImage] mounted at [i] holds, [None] in the list is [null]. *)
Definition imageLayer (W H : Q) (imgEls : nat -> option HTMLImageElement)
    (prev : list AnyShape) : list (option KonvaImageProps) :=
  imap (fun i s =>
          if String.eqb (shape_tool s) "Image" then
            match s with
            | SImage img => Some (RenderImageBase img W H (imgEls i))
            | _ => None
            end
          else None) prev.

(** [shapes.map] of the shape layer. *)
Definition shapeLayer (W H : Q) (prev : list AnyShape) : list (option KonvaNode) :=
  renderShape W H <$> prev.

(** ** Gallery bar *)

Definition GALLERY_IMAGES : list string :=
  ["https://picsum.photos/seed/101/240/160";
   "https://picsum.photos/seed/102/240/160";
   "https://picsum.photos/seed/103/240/160";
   "https://picsum.photos/seed/104/240/160";
   "https://picsum.photos/seed/105/240/160"].

(** [onDragStart] of a gallery image:
    [e.dataTransfer.setData("text/plain", img.src)]. *)
Definition galleryDragStart (src : string) (ds : DataTransfer) : DataTransfer :=
  mkDataTransfer src (files ds).

Record Touch := mkTouch { touch_clientX : Q; touch_clientY : Q }.

(** The touch handlers of a gallery image.  The state is the image's
    [data-drag-src] attribute; the result is the new attribute and the
    [detail] of the window event the handler dispatches
    ([mobile-drag-start], [mobile-drag-end]). *)
Definition galleryTouchStart (src : string) (t : Touch) (attr : option string)
  : option string * MobileDetail :=
  (Some src, mkMobileDetail (Some src) (touch_clientX t) (touch_clientY t)).

Definition galleryTouchEnd (t : Touch) (attr : option string)
  : option string * MobileDetail :=
  (None, mkMobileDetail attr (touch_clientX t) (touch_clientY t)).

(** [window.__dropImageFromUpload] as the whiteboard's effect leaves it:
    the callback while the whiteboard is mounted, [undefined] after the
    cleanup. *)
Definition uploadBridge (mounted : bool) (rect : option DOMRect)
    (stageRef : option KonvaStage) : option (JSValue -> State -> State) :=
  if mounted then Some (fun dataUrl st => dropImageFromUpload dataUrl rect stageRef st)
  else None.

(** [onChange] of the file input, with [reader.onload] run at once:
    [window.__dropImageFromUpload?.(e2.target?.result)]. *)
Definition galleryUpload (fs : list File) (bridge : option (JSValue -> State -> State))
    (st : State) : State :=
  match fs !! 0%nat with
  | None => st
  | Some f =>
      match bridge with
      | None => st
      | Some callback => callback (file_result f) st
      end
  end.

(** ** Predicates of the further statements *)

(** A pointer position on the stage. *)
Definition in_stage (W H : Q) (p : Vector2d) : Prop :=
  (0 <= vx p <= W) /\ (0 <= vy p <= H).

(** [b] is [a] grown in place: a stroke with the same attributes and
    more points after the old ones, an image with the same source and
    width, the same circle or rectangle. *)
Definition shape_extends (a b : AnyShape) : Prop :=
  match a, b with
  | SLine la, SLine lb =>
      line_tool lb = line_tool la /\ line_color lb = line_color la
      /\ line_stroke lb = line_stroke la /\ line_keyOfPage lb = line_keyOfPage la
      /\ line_points la `prefix_of` line_points lb
  | SImage ia, SImage ib => img_src ib = img_src ia /\ img_width ib = img_width ia
  | SCircle ca, SCircle cb => cb = ca
  | SRect ra, SRect rb => rb = ra
  | _, _ => False
  end.

(** Every entry of [prev] is still at its index in [next], grown in place. *)
Definition store_extends (prev next : list AnyShape) : Prop :=
  forall i s, prev !! i = Some s -> exists s', next !! i = Some s' /\ shape_extends s s'.

(** The events of the pointer on the stage. *)
Definition is_pointer_event (ev : Event) : bool :=
  match ev with
  | EvMouseDown _ | EvMouseMove _ | EvMouseUp => true
  | _ => false
  end.

(** * Properties *)

(** Case analysis along the guards of the handlers. *)
Ltac handler_cases :=
  unfold onMouseDown, onMouseMove, onMouseUp, onDrop, dropImageFromUpload,
    onMobileDrop, onImageDrag, onImageEffect, dropAtPointer;
  repeat case_match; simpl.

Create HintDb whiteboard.

(** ** Clamping and tags *)

Lemma clamp_bounds (v lo hi : Q) : lo <= hi -> lo <= clamp v lo hi <= hi.
Proof.
  intros Hle. unfold clamp. split.
  - apply Q.le_max_l.
  - apply Q.max_lub; [exact Hle | apply Q.le_min_l].
Qed.

Lemma clamp_unit (v : Q) : in_unit (clamp v 0 1).
Proof. apply clamp_bounds. lra. Qed.

Lemma clamp_inside (v lo hi : Q) : lo <= v <= hi -> clamp v lo hi == v.
Proof.
  intros [Hlo Hhi]. unfold clamp.
  rewrite (Q.min_r hi v) by exact Hhi.
  apply Q.max_r. exact Hlo.
Qed.

Lemma clamp_below (v lo hi : Q) : lo <= hi -> v <= lo -> clamp v lo hi == lo.
Proof.
  intros Hle Hv. unfold clamp.
  apply Q.max_l. destruct (Q.min_spec hi v) as [[H1 H2]|[H1 H2]]; rewrite H2; lra.
Qed.

Lemma clamp_above (v lo hi : Q) : lo <= hi -> hi <= v -> clamp v lo hi == hi.
Proof.
  intros Hle Hv. unfold clamp.
  rewrite (Q.min_l hi v) by exact Hv.
  apply Q.max_r. exact Hle.
Qed.

(** The three stroke tools, and only they, pass the test of [onMouseDown]. *)
Lemma isStrokeTool_spec (t : ToolType) :
  isStrokeTool t = true <-> t = Pen \/ t = Highlight \/ t = Eraser.
Proof.
  split.
  - destruct t; vm_compute; intros H; try discriminate H; auto.
  - intros [-> | [-> | ->]]; reflexivity.
Qed.

(** The union is discriminated by [tool]: a shape that passes the
    stroke test of [onMouseMove] is a line. *)
Lemma stroke_tag_line (s : AnyShape) :
  is_stroke_tag (shape_tool s) = true ->
  exists l, s = SLine l /\ isStrokeTool (line_tool l) = true.
Proof.
  destruct s as [l | c | r | i]; simpl; intros H.
  - exists l. split; [reflexivity | exact H].
  - vm_compute in H. discriminate H.
  - vm_compute in H. discriminate H.
  - vm_compute in H. discriminate H.
Qed.

Lemma base_lower (st : State) : 280 <= baseWidth st /\ 240 <= baseHeight st.
Proof. unfold baseWidth, baseHeight. split; apply Q.le_max_l. Qed.

(** ** The sizing invariant *)

Lemma stage_of_bounds (st : State) :
  size_in_bounds st ->
  stageH st == height (st_size st) - 136 /\ 104 <= stageH st /\ 280 <= stageW st.
Proof.
  intros [[Hw _] [Hh _]]. unfold stageH, stageW, NAV_BAR_H, GALLERY_H.
  assert (E : Qmax 0 (height (st_size st) - 40 - 96) == height (st_size st) - 40 - 96)
    by (apply Q.max_r; lra).
  rewrite E. repeat split; lra.
Qed.

Lemma initial_size_in_bounds (w h : Q) : size_in_bounds (initialState w h).
Proof.
  unfold size_in_bounds, initialState, baseWidth, baseHeight. simpl.
  repeat split; try apply Q.le_max_l; apply Qle_refl.
Qed.

Lemma onResizeStop_in_bounds (newW newH : Q) (st : State) :
  size_in_bounds (onResizeStop newW newH st).
Proof.
  destruct (base_lower st) as [Hw Hh].
  unfold size_in_bounds, onResizeStop. simpl.
  split; apply clamp_bounds; assumption.
Qed.

Lemma onViewportChange_in_bounds (w h : Q) (st : State) :
  280 <= width (st_size st) -> 240 <= height (st_size st) ->
  size_in_bounds (onViewportChange w h st).
Proof.
  intros Hw Hh.
  destruct (base_lower (set_window w h st)) as [Bw Bh].
  unfold size_in_bounds, onViewportChange, sizeEffect. simpl.
  repeat split; try (apply Q.min_glb; assumption); apply Q.le_min_r.
Qed.

(** Events other than the two sizing ones leave viewport and size alone. *)
Lemma step_size_frame (st : State) (ev : Event) :
  match ev with
  | EvResizeStop _ _ | EvViewport _ _ => True
  | _ => st_size (step st ev) = st_size st
         /\ windowW (step st ev) = windowW st
         /\ windowH (step st ev) = windowH st
  end.
Proof.
  destruct ev; simpl; try exact I; handler_cases; auto.
Qed.

Lemma size_in_bounds_frame (st st' : State) :
  st_size st' = st_size st -> windowW st' = windowW st -> windowH st' = windowH st ->
  size_in_bounds st -> size_in_bounds st'.
Proof.
  unfold size_in_bounds, baseWidth, baseHeight. intros -> -> ->. auto.
Qed.

Lemma step_size_in_bounds (st : State) (ev : Event) :
  size_in_bounds st -> size_in_bounds (step st ev).
Proof.
  intros Hs. pose proof (step_size_frame st ev) as Hf.
  destruct ev;
    try (destruct Hf as (E1 & E2 & E3); eapply size_in_bounds_frame; eauto; fail).
  - apply onResizeStop_in_bounds.
  - destruct Hs as [[Hw _] [Hh _]]. apply onViewportChange_in_bounds; assumption.
Qed.

(** ** The store invariant *)

Lemma normalized_unit (W H : Q) (pos : Vector2d) : Forall in_unit (normalized W H pos).
Proof. unfold normalized. repeat constructor; apply clamp_unit. Qed.

Lemma quarter_unit : in_unit 0.25.
Proof. unfold in_unit. lra. Qed.

#[local] Hint Resolve clamp_unit quarter_unit normalized_unit : whiteboard.

Lemma moveUpdater_ok (W H : Q) (pos : Vector2d) (prev : list AnyShape) :
  Forall shape_ok prev -> Forall shape_ok (moveUpdater W H pos prev).
Proof.
  intros Hall. unfold moveUpdater.
  destruct (length prev =? 0)%nat; [exact Hall |].
  destruct (prev !! (length prev - 1)%nat) as [last |] eqn:Hlast; [| exact Hall].
  destruct (is_stroke_tag (shape_tool last)); [| exact Hall].
  destruct last as [l | | |]; try exact Hall.
  apply Forall_insert; [exact Hall |].
  destruct (Forall_lookup_1 _ _ _ _ Hall Hlast) as (Hc & Hw & Hm).
  simpl in Hc, Hw, Hm. repeat split; simpl.
  - apply Forall_app. split; [exact Hc | apply (normalized_unit W H pos)].
  - rewrite length_app. simpl. destruct Hw as [k Hk]. exists (S k). lia.
  - exact Hm.
Qed.

Lemma dropAtPointer_ok src stageRef e (st : State) :
  Forall shape_ok (shapes st) -> Forall shape_ok (shapes (dropAtPointer src stageRef e st)).
Proof.
  intros Hall. unfold dropAtPointer.
  destruct stageRef as [stage |]; [| exact Hall].
  destruct (pointerPositionAt stage e) as [pos |]; [| exact Hall].
  simpl. apply Forall_app. split; [exact Hall |].
  constructor; [| constructor].
  split; [| split; exact I].
  simpl. auto with whiteboard.
Qed.

Lemma commitPos_ok index nx ny (prev u : list AnyShape) :
  in_unit nx -> in_unit ny ->
  commitPos index nx ny prev = Some u -> Forall shape_ok prev -> Forall shape_ok u.
Proof.
  intros Hx Hy. unfold commitPos.
  destruct (prev !! index) as [[| | | img] |] eqn:Hi; try discriminate.
  intros [= <-] Hall. apply Forall_insert; [exact Hall |].
  destruct (Forall_lookup_1 _ _ _ _ Hall Hi) as ((_ & _ & Hw) & _ & _).
  unfold in_unit in *. repeat split; simpl in *; tauto.
Qed.

Lemma commitHeightByAspect_ok index nh (prev u : list AnyShape) :
  commitHeightByAspect index nh prev = Some u -> Forall shape_ok prev -> Forall shape_ok u.
Proof.
  unfold commitHeightByAspect.
  destruct (prev !! index) as [[| | | img] |] eqn:Hi; try discriminate.
  intros [= <-] Hall. apply Forall_insert; [exact Hall |].
  destruct (Forall_lookup_1 _ _ _ _ Hall Hi) as ((Hx & Hy & Hw) & _ & _).
  unfold in_unit in *. repeat split; simpl in *; tauto.
Qed.

Lemma step_store_ok (st : State) (ev : Event) :
  Forall shape_ok (shapes st) -> Forall shape_ok (shapes (step st ev)).
Proof.
  intros Hall. destruct ev; simpl.
  - unfold onMouseDown.
    destruct (isStrokeTool (toolActive st)) eqn:Ht; simpl; [| exact Hall].
    destruct pointer as [pos |]; simpl; [| exact Hall].
    apply Forall_app. split; [exact Hall |].
    repeat constructor; simpl; try apply clamp_unit; try exact Ht.
    exists 1%nat. reflexivity.
  - unfold onMouseMove.
    destruct (isDrawing st); simpl; [| exact Hall].
    destruct pointer as [pos |]; simpl; [| exact Hall].
    apply moveUpdater_ok. exact Hall.
  - exact Hall.
  - exact Hall.
  - unfold onDrop. repeat case_match; try exact Hall; apply dropAtPointer_ok; exact Hall.
  - unfold dropImageFromUpload. case_match; try exact Hall.
    apply dropAtPointer_ok; exact Hall.
  - unfold onMobileDrop. repeat case_match; try exact Hall.
    apply dropAtPointer_ok; exact Hall.
  - unfold onImageDrag. destruct (mountedImage (shapes st) index); [| exact Hall].
    destruct phase; simpl; try exact Hall.
    destruct (handleDragEnd index (stageW st) (stageH st) p (shapes st)) as [u |] eqn:Hu;
      [| exact Hall].
    simpl. unfold handleDragEnd in Hu.
    eapply commitPos_ok; [| | exact Hu | exact Hall]; auto with whiteboard.
  - unfold onImageEffect. destruct (mountedImage (shapes st) index) as [shape |]; [| exact Hall].
    destruct (aspectEffect shape index (stageW st) (stageH st) imgEl) as [[i nh] |];
      [| exact Hall].
    destruct (commitHeightByAspect i nh (shapes st)) as [u |] eqn:Hu; [| exact Hall].
    simpl. eapply commitHeightByAspect_ok; eauto.
  - exact Hall.
  - exact Hall.
Qed.

Lemma step_Inv (st : State) (ev : Event) : Inv st -> Inv (step st ev).
Proof.
  intros [Hs Hall]. split; [apply step_size_in_bounds | apply step_store_ok]; assumption.
Qed.

Lemma initial_Inv (w h : Q) : Inv (initialState w h).
Proof. split; [apply initial_size_in_bounds | constructor]. Qed.

Lemma run_Inv (evs : list Event) (st : State) : Inv st -> Inv (run st evs).
Proof.
  revert st. induction evs as [| ev evs IH]; intros st Hst; simpl.
  - exact Hst.
  - apply IH. apply step_Inv. exact Hst.
Qed.

(** In every state the widget reaches the stage has positive width and
    height, so the quotients of the handlers are the JavaScript ones. *)
Lemma stage_positive (w h : Q) (evs : list Event) :
  0 < stageW (run (initialState w h) evs) /\ 0 < stageH (run (initialState w h) evs).
Proof.
  destruct (run_Inv evs _ (initial_Inv w h)) as [Hs _].
  destruct (stage_of_bounds _ Hs) as (_ & Hh & Hw). split; lra.
Qed.

Lemma shape_ok_coords (l : list AnyShape) : Forall shape_ok l -> Forall coords_in_unit l.
Proof. apply Forall_impl. intros s [Hc _]. exact Hc. Qed.

(** What [dropAtPointer] does to the store: nothing, or one image with
    the clamped point and the fixed size. *)
Lemma dropAtPointer_shapes src stageRef e (st : State) :
  shapes (dropAtPointer src stageRef e st)
  = shapes st ++
    match stageRef with
    | Some stage =>
        match pointerPositionAt stage e with
        | Some pos =>
            [SImage (mkImageShape src (clamp (vx pos / stageW st) 0 1)
                       (clamp (vy pos / stageH st) 0 1) 0.25 0.25)]
        | None => []
        end
    | None => []
    end.
Proof.
  unfold dropAtPointer. destruct stageRef as [stage |]; simpl.
  - destruct (pointerPositionAt stage e); simpl; [reflexivity | by rewrite app_nil_r].
  - by rewrite app_nil_r.
Qed.

(** ** Coordinates written by pointer interaction *)

Lemma clamp_quotient_outside (a b : Q) :
  0 < b ->
  (a <= 0 -> clamp (a / b) 0 1 == 0) /\ (b <= a -> clamp (a / b) 0 1 == 1).
Proof.
  intros Hb. split; intros Ha.
  - apply clamp_below; [lra |]. apply Qle_shift_div_r; [exact Hb | lra].
  - apply clamp_above; [lra |]. apply Qle_shift_div_l; [exact Hb | lra].
Qed.

(** C1.  In every state the widget reaches from its first render, through
    any sequence of events with any raw pointer positions, the stage has
    positive width and height and every coordinate that pointer
    interaction wrote into the store (the points of every stroke, from
    pointer-down and pointer-move; the position and width of every image,
    from a drop or a drag release) lies in [0,1]; a drop adds at most one
    image, all four of whose normalized fields lie in [0,1]; and a raw
    coordinate left of or above the stage normalizes to 0, one right of
    or below it to 1. *)
Theorem pointer_coords_in_unit (w h : Q) (evs : list Event) :
  let st := run (initialState w h) evs in
  (0 < stageW st /\ 0 < stageH st)
  /\ Forall coords_in_unit (shapes st)
  /\ (forall src stageRef e,
        exists added,
          shapes (dropAtPointer src stageRef e st) = shapes st ++ added
          /\ Forall (fun s => exists i, s = SImage i
                       /\ in_unit (img_x i) /\ in_unit (img_y i)
                       /\ in_unit (img_width i) /\ in_unit (img_height i)) added)
  /\ (forall a,
        (a <= 0 -> clamp (a / stageW st) 0 1 == 0 /\ clamp (a / stageH st) 0 1 == 0)
        /\ (stageW st <= a -> clamp (a / stageW st) 0 1 == 1)
        /\ (stageH st <= a -> clamp (a / stageH st) 0 1 == 1)).
Proof.
  intros st. pose proof (stage_positive w h evs) as [HW HH]. fold st in HW, HH.
  split; [split; assumption |]. split; [| split].
  - apply shape_ok_coords. apply (run_Inv evs _ (initial_Inv w h)).
  - intros src stageRef e. eexists. split; [apply dropAtPointer_shapes |].
    destruct stageRef as [stage |]; [| constructor].
    destruct (pointerPositionAt stage e) as [pos |]; [| constructor].
    constructor; [| constructor]. eexists. split; [reflexivity |]. simpl.
    repeat split; try apply clamp_unit; unfold in_unit; lra.
  - intros a.
    destruct (clamp_quotient_outside a _ HW) as [Wl Wr].
    destruct (clamp_quotient_outside a _ HH) as [Hl Hr].
    split; [intros Ha; split; auto |]. split; assumption.
Qed.

Lemma pointer_coords_in_unit_witness :
  (-5 <= 0
   /\ clamp (-5 / stageW (run (initialState 880 872) [EvMouseDown (Some sample_pos)])) 0 1
      == 0)
  /\ (stageW (run (initialState 880 872) [EvMouseDown (Some sample_pos)]) <= 900
      /\ clamp (900 / stageW (run (initialState 880 872) [EvMouseDown (Some sample_pos)])) 0 1
         == 1)
  /\ (stageH (run (initialState 880 872) [EvMouseDown (Some sample_pos)]) <= 900
      /\ clamp (900 / stageH (run (initialState 880 872) [EvMouseDown (Some sample_pos)])) 0 1
         == 1).
Proof.
  assert (H5 : -5 <= 0) by lra.
  assert (HW : stageW (run (initialState 880 872) [EvMouseDown (Some sample_pos)]) <= 900)
    by (vm_compute; discriminate).
  assert (HH : stageH (run (initialState 880 872) [EvMouseDown (Some sample_pos)]) <= 900)
    by (vm_compute; discriminate).
  split; [split; [exact H5 |] | split; [split; [exact HW |] | split; [exact HH |]]].
  - exact (proj1 (proj1 (proj2 (proj2 (proj2
      (pointer_coords_in_unit 880 872 [EvMouseDown (Some sample_pos)]))) (-5)) H5)).
  - exact (proj1 (proj2 (proj2 (proj2 (proj2
      (pointer_coords_in_unit 880 872 [EvMouseDown (Some sample_pos)]))) 900)) HW).
  - exact (proj2 (proj2 (proj2 (proj2 (proj2
      (pointer_coords_in_unit 880 872 [EvMouseDown (Some sample_pos)]))) 900)) HH).
Defined.

(** ** Modal size *)

(** C6.  In every state the widget reaches, the modal size lies in
    [280, baseWidth] x [240, baseHeight]; a resize-stop commits a size in
    these bounds whatever size the element reports, and a viewport change
    brings the size back into the bounds of the new base size.  So width
    is at least 280 and height at least 240 after every operation, and
    the stage height is the height minus 136 and positive. *)
Theorem modal_size_within_bounds (w h : Q) (evs : list Event) :
  let st := run (initialState w h) evs in
  size_in_bounds st
  /\ (forall newW newH, size_in_bounds (onResizeStop newW newH st))
  /\ (forall w' h', size_in_bounds (onViewportChange w' h' st))
  /\ 280 <= width (st_size st)
  /\ 240 <= height (st_size st)
  /\ stageH st == height (st_size st) - 136
  /\ 0 < stageH st.
Proof.
  intros st.
  destruct (run_Inv evs _ (initial_Inv w h)) as [Hs _]. fold st in Hs.
  destruct (stage_of_bounds _ Hs) as (E & Hh & _).
  pose proof Hs as [[Hw _] [Hh' _]].
  split; [exact Hs |]. split; [intros; apply onResizeStop_in_bounds |].
  split; [intros; apply onViewportChange_in_bounds; assumption |].
  repeat split; try assumption. lra.
Qed.

(** ** Strokes *)

Lemma moveUpdater_stroke (W H : Q) (pos : Vector2d) (init : list AnyShape) (l : LineShape) :
  isStrokeTool (line_tool l) = true ->
  moveUpdater W H pos (init ++ [SLine l])
  = init ++ [SLine (line_with_points l (line_points l ++ normalized W H pos))].
Proof.
  intros Hl. unfold moveUpdater.
  rewrite length_app. simpl.
  replace (length init + 1 =? 0)%nat with false by (symmetry; apply Nat.eqb_neq; lia).
  replace (length init + 1 - 1)%nat with (length init) by lia.
  rewrite list_lookup_middle by reflexivity.
  simpl. unfold isStrokeTool in Hl. rewrite Hl.
  rewrite insert_app_r_alt by lia.
  replace (length init - length init)%nat with 0%nat by lia.
  reflexivity.
Qed.

Lemma moveUpdater_other (W H : Q) (pos : Vector2d) (prev : list AnyShape) :
  last_is_stroke prev = false -> moveUpdater W H pos prev = prev.
Proof.
  unfold last_is_stroke, moveUpdater. intros Hl.
  destruct (length prev =? 0)%nat; [reflexivity |].
  destruct (prev !! (length prev - 1)%nat) as [last |]; [| reflexivity].
  rewrite Hl. reflexivity.
Qed.

Lemma last_is_stroke_inv (prev : list AnyShape) :
  last_is_stroke prev = true ->
  exists init l, prev = init ++ [SLine l] /\ isStrokeTool (line_tool l) = true.
Proof.
  unfold last_is_stroke.
  induction prev as [| x init _] using rev_ind; [discriminate |].
  rewrite length_app. simpl.
  replace (length init + 1 - 1)%nat with (length init) by lia.
  rewrite list_lookup_middle by reflexivity.
  intros Hx. destruct (stroke_tag_line _ Hx) as (l & -> & Hl).
  exists init, l. split; [reflexivity | exact Hl].
Qed.

Lemma onMouseDown_stroke (pos : Vector2d) (st : State) :
  isStrokeTool (toolActive st) = true ->
  onMouseDown (Some pos) st
  = set_shapes
      (shapes st ++
        [SLine (mkLineShape (toolActive st)
           (if tool_is (toolActive st) Highlight
            then "rgba(255,255,0,0.5)"%string else "#222"%string)
           (if tool_is (toolActive st) Eraser then 24 else 3)
           (normalized (stageW st) (stageH st) pos) None)])
      (set_isDrawing true st).
Proof. intros Ht. unfold onMouseDown. rewrite Ht. reflexivity. Qed.

Lemma moves_from_stroke (moves : list (option Vector2d)) (st : State)
    (init : list AnyShape) (l : LineShape) :
  isDrawing st = true ->
  shapes st = init ++ [SLine l] ->
  isStrokeTool (line_tool l) = true ->
  moves_from st moves
  = set_shapes
      (init ++ [SLine (line_with_points l
         (line_points l
          ++ concat (map (normalized (stageW st) (stageH st)) (omap id moves))))])
      st.
Proof.
  revert st l. induction moves as [| m moves IH]; intros st l Hd Hs Hl.
  - simpl. rewrite app_nil_r. destruct st, l. simpl in *. subst. reflexivity.
  - unfold moves_from. simpl. fold (moves_from (onMouseMove m st) moves).
    destruct m as [pos |].
    + assert (E : onMouseMove (Some pos) st
                  = set_shapes (init ++ [SLine (line_with_points l
                       (line_points l ++ normalized (stageW st) (stageH st) pos))]) st).
      { unfold onMouseMove. rewrite Hd. simpl. rewrite Hs.
        rewrite moveUpdater_stroke by exact Hl. reflexivity. }
      rewrite E.
      rewrite (IH _ (line_with_points l
                 (line_points l ++ normalized (stageW st) (stageH st) pos)));
        try exact Hl; try reflexivity; try exact Hd.
      simpl. unfold line_with_points, set_shapes, stageW, stageH. simpl.
      rewrite <- !app_assoc. reflexivity.
    + assert (E : onMouseMove None st = st).
      { unfold onMouseMove. rewrite Hd. reflexivity. }
      rewrite E. simpl. apply IH; assumption.
Qed.

(** C5.  For a pointer-down with a stroke tool at an available position,
    followed by any sequence of move events: pointer-down appends one
    stroke seeded with the one normalized point and sets the drawing
    flag; the store then still ends with that single stroke, whose
    points are the seed followed by the normalized points of the moves
    that had a position, in arrival order.  And a move event with an
    available position, while drawing, appends exactly its normalized
    point to the last shape when that shape is a stroke, and changes
    nothing when it is not. *)
Theorem stroke_grows_in_order :
  (forall (st : State) (pos0 : Vector2d) (moves : list (option Vector2d)),
     isStrokeTool (toolActive st) = true ->
     let W := stageW st in
     let H := stageH st in
     let st1 := onMouseDown (Some pos0) st in
     exists l0,
       shapes st1 = shapes st ++ [SLine l0]
       /\ line_tool l0 = toolActive st
       /\ line_points l0 = normalized W H pos0
       /\ isDrawing st1 = true
       /\ shapes (moves_from st1 moves)
          = shapes st ++
            [SLine (line_with_points l0
               (normalized W H pos0
                ++ concat (map (normalized W H) (omap id moves))))])
  /\ (forall (st : State) (pos : Vector2d),
        isDrawing st = true ->
        (last_is_stroke (shapes st) = true ->
           exists init l,
             shapes st = init ++ [SLine l]
             /\ shapes (onMouseMove (Some pos) st)
                = init ++ [SLine (line_with_points l
                     (line_points l ++ normalized (stageW st) (stageH st) pos))])
        /\ (last_is_stroke (shapes st) = false ->
              onMouseMove (Some pos) st = st)).
Proof.
  split.
  - intros st pos0 moves Ht W H st1.
    pose proof (onMouseDown_stroke pos0 st Ht) as E. fold st1 in E.
    eexists. split; [rewrite E; reflexivity |].
    split; [reflexivity |]. split; [reflexivity |].
    split; [rewrite E; reflexivity |].
    erewrite (moves_from_stroke moves st1 (shapes st));
      [| rewrite E; reflexivity | rewrite E; reflexivity | exact Ht].
    rewrite E. reflexivity.
  - intros st pos Hd. split.
    + intros Hl. destruct (last_is_stroke_inv _ Hl) as (init & l & Hs & Ht).
      exists init, l. split; [exact Hs |].
      unfold onMouseMove. rewrite Hd. simpl. rewrite Hs.
      apply moveUpdater_stroke. exact Ht.
    + intros Hl. unfold onMouseMove. rewrite Hd. simpl.
      rewrite moveUpdater_other by exact Hl. destruct st; reflexivity.
Qed.

Lemma stroke_grows_in_order_witness :
  (isStrokeTool (toolActive sample_state) = true
   /\ exists l0,
        shapes (onMouseDown (Some sample_pos) sample_state)
        = shapes sample_state ++ [SLine l0]
        /\ line_tool l0 = toolActive sample_state
        /\ line_points l0
           = normalized (stageW sample_state) (stageH sample_state) sample_pos
        /\ isDrawing (onMouseDown (Some sample_pos) sample_state) = true
        /\ shapes (moves_from (onMouseDown (Some sample_pos) sample_state) sample_moves)
           = shapes sample_state ++
             [SLine (line_with_points l0
                (normalized (stageW sample_state) (stageH sample_state) sample_pos
                 ++ concat (map (normalized (stageW sample_state) (stageH sample_state))
                              (omap id sample_moves))))])
  /\ (isDrawing (onMouseDown (Some sample_pos) sample_state) = true
      /\ last_is_stroke (shapes (onMouseDown (Some sample_pos) sample_state)) = true
      /\ exists init l,
           shapes (onMouseDown (Some sample_pos) sample_state) = init ++ [SLine l]
           /\ shapes (onMouseMove (Some sample_pos)
                        (onMouseDown (Some sample_pos) sample_state))
              = init ++ [SLine (line_with_points l
                   (line_points l
                    ++ normalized (stageW (onMouseDown (Some sample_pos) sample_state))
                         (stageH (onMouseDown (Some sample_pos) sample_state))
                         sample_pos))])
  /\ (isDrawing (set_isDrawing true sample_state) = true
      /\ last_is_stroke (shapes (set_isDrawing true sample_state)) = false
      /\ onMouseMove (Some sample_pos) (set_isDrawing true sample_state)
         = set_isDrawing true sample_state).
Proof.
  split; [split; [reflexivity |] | split; [split; [reflexivity | split; [reflexivity |]]
                                         | split; [reflexivity | split; [reflexivity |]]]].
  - exact (proj1 stroke_grows_in_order sample_state sample_pos sample_moves eq_refl).
  - exact (proj1 (proj2 stroke_grows_in_order
                    (onMouseDown (Some sample_pos) sample_state) sample_pos eq_refl)
             eq_refl).
  - exact (proj2 (proj2 stroke_grows_in_order
                    (set_isDrawing true sample_state) sample_pos eq_refl)
             eq_refl).
Defined.

(** C10.  With a stroke tool active and the pointer position
    unavailable, pointer-down still sets the drawing flag and creates no
    stroke; a following pointer-move with an available position then
    appends its normalized point to the last shape of the store when that
    shape is a stroke of an earlier gesture.  Had the flag stayed unset,
    the move would have been ignored. *)
Theorem down_without_position_extends_previous_stroke
    (st : State) (init : list AnyShape) (l : LineShape) (pos : Vector2d) :
  isStrokeTool (toolActive st) = true ->
  shapes st = init ++ [SLine l] ->
  isStrokeTool (line_tool l) = true ->
  isDrawing (onMouseDown None st) = true
  /\ shapes (onMouseDown None st) = shapes st
  /\ shapes (onMouseMove (Some pos) (onMouseDown None st))
     = init ++ [SLine (line_with_points l
          (line_points l ++ normalized (stageW st) (stageH st) pos))]
  /\ (isDrawing st = false -> onMouseMove (Some pos) st = st).
Proof.
  intros Ht Hs Hl.
  assert (E : onMouseDown None st = set_isDrawing true st)
    by (unfold onMouseDown; rewrite Ht; reflexivity).
  rewrite E. split; [reflexivity |]. split; [reflexivity |]. split.
  - unfold onMouseMove. simpl. rewrite Hs. apply moveUpdater_stroke. exact Hl.
  - intros Hd. unfold onMouseMove. rewrite Hd. reflexivity.
Qed.

Lemma down_without_position_witness :
  isStrokeTool (toolActive (set_shapes [SLine sample_stroke] sample_state)) = true
  /\ shapes (set_shapes [SLine sample_stroke] sample_state) = [] ++ [SLine sample_stroke]
  /\ isStrokeTool (line_tool sample_stroke) = true
  /\ shapes (onMouseMove (Some sample_pos)
               (onMouseDown None (set_shapes [SLine sample_stroke] sample_state)))
     = [] ++ [SLine (line_with_points sample_stroke
          (line_points sample_stroke
           ++ normalized (stageW (set_shapes [SLine sample_stroke] sample_state))
                (stageH (set_shapes [SLine sample_stroke] sample_state)) sample_pos))]
  /\ isDrawing (set_shapes [SLine sample_stroke] sample_state) = false
  /\ onMouseMove (Some sample_pos) (set_shapes [SLine sample_stroke] sample_state)
     = set_shapes [SLine sample_stroke] sample_state.
Proof.
  do 3 (split; [reflexivity |]).
  split; [| split; [reflexivity |]].
  - exact (proj1 (proj2 (proj2
      (down_without_position_extends_previous_stroke
         (set_shapes [SLine sample_stroke] sample_state) [] sample_stroke sample_pos
         eq_refl eq_refl eq_refl)))).
  - exact (proj2 (proj2 (proj2
      (down_without_position_extends_previous_stroke
         (set_shapes [SLine sample_stroke] sample_state) [] sample_stroke sample_pos
         eq_refl eq_refl eq_refl))) eq_refl).
Defined.

(** ** Failure modes *)

(** [onDrop] looks at the text payload first: when there is one, it is
    the source of the dropped image and the files are not read. *)
Lemma onDrop_text_first (x y : Q) (c : Ascii.ascii) (t : string) (fs : list File)
    stageRef (st : State) :
  onDrop (mkDragEvent x y (Some (mkDataTransfer (String c t) fs))) stageRef st
  = dropAtPointer (String c t) stageRef
      (mkDragEvent x y (Some (mkDataTransfer (String c t) fs))) st.
Proof. reflexivity. Qed.

(** C7 fails as worded.  A dropped file that is no image, in a drop
    that also carries a text payload, is not ignored: the text is
    tested first and taken as the source, and an image is appended. *)
Lemma non_image_file_with_text_appends :
  String.prefix "image/" (file_type (mkFile "application/pdf" JSNull)) = false
  /\ shapes (onDrop
               (mkDragEvent 400 300
                  (Some (mkDataTransfer "report.pdf" [mkFile "application/pdf" JSNull])))
               (Some sample_stage) sample_state)
     = shapes sample_state ++
       [SImage (mkImageShape "report.pdf"
                  (clamp (400 / stageW sample_state) 0 1)
                  (clamp (300 / stageH sample_state) 0 1) 0.25 0.25)]
  /\ shapes (onDrop
               (mkDragEvent 400 300
                  (Some (mkDataTransfer "report.pdf" [mkFile "application/pdf" JSNull])))
               (Some sample_stage) sample_state)
     <> shapes sample_state.
Proof.
  split; [reflexivity |]. split; [reflexivity |].
  vm_compute. discriminate.
Qed.

(** C7, amended.  Each narrow failure leaves the shape store as it was:
    a pointer-down or pointer-move whose pointer position is
    unavailable; a drop with no data transfer, or with neither a text
    payload nor a file; a dropped file whose MIME type does not start
    with image/, whatever reading it would give, when the drop carries
    no text payload; and an upload callback whose argument is not a
    string.  A drop that carries a text payload is no failure: the text
    is its source, whatever files come with it. *)
Theorem failures_leave_store_unchanged
    (st : State) (stageRef : option KonvaStage) (x y : Q) :
  shapes (onMouseDown None st) = shapes st
  /\ onMouseMove None st = st
  /\ onDrop (mkDragEvent x y None) stageRef st = st
  /\ onDrop (mkDragEvent x y (Some (mkDataTransfer EmptyString []))) stageRef st = st
  /\ (forall f rest,
        String.prefix "image/" (file_type f) = false ->
        onDrop (mkDragEvent x y (Some (mkDataTransfer EmptyString (f :: rest)))) stageRef st
        = st)
  /\ (forall dataUrl rect,
        (forall s, dataUrl <> JSString s) ->
        dropImageFromUpload dataUrl rect stageRef st = st)
  /\ (forall c t fs,
        onDrop (mkDragEvent x y (Some (mkDataTransfer (String c t) fs))) stageRef st
        = dropAtPointer (String c t) stageRef
            (mkDragEvent x y (Some (mkDataTransfer (String c t) fs))) st).
Proof.
  split; [handler_cases; reflexivity |].
  split; [handler_cases; reflexivity |].
  split; [reflexivity |]. split; [reflexivity |]. split; [| split].
  - intros f rest Hf. unfold onDrop. simpl. rewrite Hf. reflexivity.
  - intros dataUrl rect Hd. destruct dataUrl as [s | | |]; try reflexivity.
    destruct (Hd s eq_refl).
  - intros c t fs. reflexivity.
Qed.

Lemma failures_leave_store_unchanged_witness :
  String.prefix "image/" (file_type (mkFile "text/plain" (JSString "hello"))) = false
  /\ onDrop (mkDragEvent 400 300
       (Some (mkDataTransfer EmptyString [mkFile "text/plain" (JSString "hello")])))
       (Some sample_stage) sample_state
     = sample_state
  /\ (forall s, JSNull <> JSString s)
  /\ dropImageFromUpload JSNull None (Some sample_stage) sample_state = sample_state.
Proof.
  split; [reflexivity |]. split; [| split; [discriminate |]].
  - exact (proj1 (proj2 (proj2 (proj2 (proj2
      (failures_leave_store_unchanged sample_state (Some sample_stage) 400 300)))))
      (mkFile "text/plain" (JSString "hello")) [] eq_refl).
  - exact (proj1 (proj2 (proj2 (proj2 (proj2 (proj2
      (failures_leave_store_unchanged sample_state (Some sample_stage) 400 300))))))
      JSNull None ltac:(discriminate)).
Defined.

(** ** Stroke attributes *)

(** C8.  Colour and width of a new stroke are fixed by the tool active
    at pointer-down: pen gives "#222" at width 3, highlight
    "rgba(255,255,0,0.5)" at width 3, eraser width 24.  The shape layer
    draws an eraser stroke in "#000" with its stored width, composited
    "destination-out", and a pen or highlight stroke with its stored
    colour and width, composited "source-over". *)
Theorem stroke_attributes_by_tool (st : State) (pos : Vector2d) (W H : Q) :
  (toolActive st = Pen ->
     shapes (onMouseDown (Some pos) st)
     = shapes st ++
       [SLine (mkLineShape Pen "#222" 3 (normalized (stageW st) (stageH st) pos) None)])
  /\ (toolActive st = Highlight ->
        shapes (onMouseDown (Some pos) st)
        = shapes st ++
          [SLine (mkLineShape Highlight "rgba(255,255,0,0.5)" 3
                    (normalized (stageW st) (stageH st) pos) None)])
  /\ (toolActive st = Eraser ->
        shapes (onMouseDown (Some pos) st)
        = shapes st ++
          [SLine (mkLineShape Eraser "#222" 24
                    (normalized (stageW st) (stageH st) pos) None)])
  /\ (forall l,
        line_tool l = Eraser ->
        exists p, renderShape W H (SLine l) = Some (KLine p)
                  /\ lp_stroke p = "#000"%string
                  /\ lp_strokeWidth p = line_stroke l
                  /\ lp_globalCompositeOperation p = "destination-out"%string)
  /\ (forall l,
        line_tool l = Pen \/ line_tool l = Highlight ->
        exists p, renderShape W H (SLine l) = Some (KLine p)
                  /\ lp_stroke p = line_color l
                  /\ lp_strokeWidth p = line_stroke l
                  /\ lp_globalCompositeOperation p = "source-over"%string).
Proof.
  split; [| split; [| split; [| split]]].
  - intros Ht. unfold onMouseDown. rewrite Ht. reflexivity.
  - intros Ht. unfold onMouseDown. rewrite Ht. reflexivity.
  - intros Ht. unfold onMouseDown. rewrite Ht. reflexivity.
  - intros l Hl. unfold renderShape. simpl. rewrite Hl. simpl.
    eexists. split; [reflexivity |]. repeat split; reflexivity.
  - intros l [Hl | Hl]; unfold renderShape; simpl; rewrite Hl; simpl;
      (eexists; split; [reflexivity |]; repeat split; reflexivity).
Qed.

Lemma stroke_attributes_by_tool_witness :
  (toolActive sample_state = Pen
   /\ shapes (onMouseDown (Some sample_pos) sample_state)
      = shapes sample_state ++
        [SLine (mkLineShape Pen "#222" 3
                  (normalized (stageW sample_state) (stageH sample_state) sample_pos) None)])
  /\ (toolActive (set_toolActive Highlight sample_state) = Highlight
      /\ shapes (onMouseDown (Some sample_pos) (set_toolActive Highlight sample_state))
         = shapes (set_toolActive Highlight sample_state) ++
           [SLine (mkLineShape Highlight "rgba(255,255,0,0.5)" 3
                     (normalized (stageW (set_toolActive Highlight sample_state))
                        (stageH (set_toolActive Highlight sample_state)) sample_pos) None)])
  /\ (toolActive (set_toolActive Eraser sample_state) = Eraser
      /\ shapes (onMouseDown (Some sample_pos) (set_toolActive Eraser sample_state))
         = shapes (set_toolActive Eraser sample_state) ++
           [SLine (mkLineShape Eraser "#222" 24
                     (normalized (stageW (set_toolActive Eraser sample_state))
                        (stageH (set_toolActive Eraser sample_state)) sample_pos) None)])
  /\ (line_tool (mkLineShape Eraser "#222" 24 [0.5; 0.5] None) = Eraser
      /\ exists p,
           renderShape 800 600 (SLine (mkLineShape Eraser "#222" 24 [0.5; 0.5] None))
           = Some (KLine p)
           /\ lp_stroke p = "#000"%string
           /\ lp_strokeWidth p = line_stroke (mkLineShape Eraser "#222" 24 [0.5; 0.5] None)
           /\ lp_globalCompositeOperation p = "destination-out"%string)
  /\ ((line_tool sample_stroke = Pen \/ line_tool sample_stroke = Highlight)
      /\ exists p,
           renderShape 800 600 (SLine sample_stroke) = Some (KLine p)
           /\ lp_stroke p = line_color sample_stroke
           /\ lp_strokeWidth p = line_stroke sample_stroke
           /\ lp_globalCompositeOperation p = "source-over"%string).
Proof.
  split; [split; [reflexivity |] |
  split; [split; [reflexivity |] |
  split; [split; [reflexivity |] |
  split; [split; [reflexivity |] | split; [left; reflexivity |]]]]].
  - exact (proj1 (stroke_attributes_by_tool sample_state sample_pos 800 600) eq_refl).
  - exact (proj1 (proj2 (stroke_attributes_by_tool
             (set_toolActive Highlight sample_state) sample_pos 800 600)) eq_refl).
  - exact (proj1 (proj2 (proj2 (stroke_attributes_by_tool
             (set_toolActive Eraser sample_state) sample_pos 800 600))) eq_refl).
  - exact (proj1 (proj2 (proj2 (proj2 (stroke_attributes_by_tool
             sample_state sample_pos 800 600))))
             (mkLineShape Eraser "#222" 24 [0.5; 0.5] None) eq_refl).
  - exact (proj2 (proj2 (proj2 (proj2 (stroke_attributes_by_tool
             sample_state sample_pos 800 600))))
             sample_stroke (or_introl eq_refl)).
Defined.

(** ** Repositioning an image *)

Lemma onImageDrag_end (st : State) (index : nat) (p : Vector2d) (img : ImageShape) :
  shapes st !! index = Some (SImage img) ->
  onImageDrag DragEnd index p st
  = set_shapes
      (<[index := SImage (mkImageShape (img_src img)
                            (clamp (vx p / stageW st) 0 1)
                            (clamp (vy p / stageH st) 0 1)
                            (img_width img) (img_height img))]> (shapes st))
      st.
Proof.
  intros Hi. unfold onImageDrag, mountedImage. rewrite Hi. simpl.
  unfold handleDragEnd, commitPos. rewrite Hi. reflexivity.
Qed.

(** C9.  On drag release of the image mounted at [index], the store
    gets, at [index], the same image with x and y replaced by the release
    position divided by the stage size and clamped; src, width and
    height of that image, every other entry of the store, its length,
    and the rest of the state are as before.  The drag-start and
    drag-move events of the image change nothing. *)
Theorem drag_release_commits_position
    (st : State) (index : nat) (p : Vector2d) (img : ImageShape) :
  shapes st !! index = Some (SImage img) ->
  onImageDrag DragEnd index p st
  = set_shapes (shapes (onImageDrag DragEnd index p st)) st
  /\ shapes (onImageDrag DragEnd index p st) !! index
     = Some (SImage (mkImageShape (img_src img)
                       (clamp (vx p / stageW st) 0 1)
                       (clamp (vy p / stageH st) 0 1)
                       (img_width img) (img_height img)))
  /\ length (shapes (onImageDrag DragEnd index p st)) = length (shapes st)
  /\ (forall j, j <> index ->
        shapes (onImageDrag DragEnd index p st) !! j = shapes st !! j)
  /\ onImageDrag DragStart index p st = st
  /\ onImageDrag DragMove index p st = st.
Proof.
  intros Hi. rewrite (onImageDrag_end st index p img Hi). simpl.
  split; [reflexivity |]. split.
  { apply list_lookup_insert_eq. eapply lookup_lt_Some. exact Hi. }
  split; [apply length_insert |]. split.
  { intros j Hj. apply list_lookup_insert_ne. congruence. }
  unfold onImageDrag, mountedImage. rewrite Hi. simpl. split; reflexivity.
Qed.

Lemma drag_release_commits_position_witness :
  shapes (set_shapes [SLine sample_stroke; SImage (mkImageShape "a.png" 0.5 0.5 0.25 0.25)]
            sample_state) !! 1%nat
  = Some (SImage (mkImageShape "a.png" 0.5 0.5 0.25 0.25))
  /\ shapes (onImageDrag DragEnd 1 (mkVector2d 200 900)
               (set_shapes [SLine sample_stroke;
                            SImage (mkImageShape "a.png" 0.5 0.5 0.25 0.25)]
                  sample_state)) !! 0%nat
     = Some (SLine sample_stroke).
Proof.
  split; [reflexivity |].
  exact (proj1 (proj2 (proj2 (proj2
    (drag_release_commits_position
       (set_shapes [SLine sample_stroke; SImage (mkImageShape "a.png" 0.5 0.5 0.25 0.25)]
          sample_state)
       1 (mkVector2d 200 900) (mkImageShape "a.png" 0.5 0.5 0.25 0.25) eq_refl))))
    0%nat ltac:(discriminate)).
Defined.

(** ** Dropping an image *)

Lemma quotient_in_unit (a b : Q) : 0 < b -> 0 <= a <= b -> 0 <= a / b <= 1.
Proof.
  intros Hb [H0 H1]. split.
  - apply Qle_shift_div_l; [exact Hb | lra].
  - apply Qle_shift_div_r; [exact Hb | lra].
Qed.

Lemma normalize_denormalize (a b : Q) :
  0 < b -> 0 <= a <= b -> clamp (a / b) 0 1 * b == a.
Proof.
  intros Hb Ha. rewrite (clamp_inside (a / b) 0 1) by (apply quotient_in_unit; assumption).
  field. lra.
Qed.

Lemma RenderImageBase_center (shape : ImageShape) (W H : Q) imgEl :
  ki_centerX (RenderImageBase shape W H imgEl) == img_x shape * W
  /\ ki_centerY (RenderImageBase shape W H imgEl) == img_y shape * H.
Proof. unfold ki_centerX, ki_centerY, RenderImageBase. simpl. split; ring. Qed.

(** C4.  A drop at an available pointer position inside the stage
    appends one image with the given source and normalized size
    0.25 x 0.25, whose normalized position denormalizes to the drop
    point; it is drawn centred at the drop point, loaded or not, and
    before its asset loads with pixel size a quarter of the stage width
    by a quarter of the stage height. *)
Theorem drop_appends_centered_image
    (st : State) (stage : KonvaStage) (e : DragEvent) (src : string) (pos : Vector2d) :
  pointerPositionAt stage e = Some pos ->
  0 < stageW st -> 0 < stageH st ->
  0 <= vx pos <= stageW st -> 0 <= vy pos <= stageH st ->
  exists shape,
    shapes (dropAtPointer src (Some stage) e st) = shapes st ++ [SImage shape]
    /\ img_src shape = src /\ img_width shape = 0.25 /\ img_height shape = 0.25
    /\ img_x shape * stageW st == vx pos
    /\ img_y shape * stageH st == vy pos
    /\ (forall imgEl,
          ki_centerX (RenderImageBase shape (stageW st) (stageH st) imgEl) == vx pos
          /\ ki_centerY (RenderImageBase shape (stageW st) (stageH st) imgEl) == vy pos)
    /\ ki_width (RenderImageBase shape (stageW st) (stageH st) None) == 0.25 * stageW st
    /\ ki_height (RenderImageBase shape (stageW st) (stageH st) None) == 0.25 * stageH st.
Proof.
  intros Hp HW HH Hx Hy.
  exists (mkImageShape src (clamp (vx pos / stageW st) 0 1)
            (clamp (vy pos / stageH st) 0 1) 0.25 0.25).
  split; [unfold dropAtPointer; rewrite Hp; reflexivity |].
  do 3 (split; [reflexivity |]).
  pose proof (normalize_denormalize _ _ HW Hx) as Ex.
  pose proof (normalize_denormalize _ _ HH Hy) as Ey.
  split; [exact Ex |]. split; [exact Ey |]. split.
  - intros imgEl.
    destruct (RenderImageBase_center
                (mkImageShape src (clamp (vx pos / stageW st) 0 1)
                   (clamp (vy pos / stageH st) 0 1) 0.25 0.25)
                (stageW st) (stageH st) imgEl) as [Cx Cy].
    simpl in Cx, Cy. rewrite Cx, Cy. split; assumption.
  - split; reflexivity.
Qed.

(** The example of a drop at the middle of an 800 x 600 stage: the image
    is centred at pixel (400, 300) and is 200 x 150 pixels. *)
Lemma drop_appends_centered_image_witness :
  (0 < stageW sample_state /\ 0 < stageH sample_state
   /\ 0 <= vx sample_pos <= stageW sample_state
   /\ 0 <= vy sample_pos <= stageH sample_state)
  /\ (stageW sample_state == 800 /\ stageH sample_state == 600)
  /\ exists shape,
       shapes (dropAtPointer "a.png" (Some sample_stage) (mkDragEvent 400 300 None)
                 sample_state)
       = shapes sample_state ++ [SImage shape]
       /\ (img_x shape == 0.5 /\ img_y shape == 0.5)
       /\ (img_width shape = 0.25 /\ img_height shape = 0.25)
       /\ (ki_centerX (RenderImageBase shape 800 600 None) == 400
           /\ ki_centerY (RenderImageBase shape 800 600 None) == 300)
       /\ (ki_width (RenderImageBase shape 800 600 None) == 200
           /\ ki_height (RenderImageBase shape 800 600 None) == 150).
Proof.
  assert (Hpos : 0 < stageW sample_state /\ 0 < stageH sample_state
                 /\ 0 <= vx sample_pos <= stageW sample_state
                 /\ 0 <= vy sample_pos <= stageH sample_state)
    by (vm_compute; intuition discriminate).
  split; [exact Hpos |]. split; [split; reflexivity |].
  destruct Hpos as (HW & HH & Hx & Hy).
  destruct (drop_appends_centered_image sample_state sample_stage
              (mkDragEvent 400 300 None) "a.png" sample_pos eq_refl HW HH Hx Hy)
    as (shape & Hs & Hsrc & Hw & Hh & Ex & Ey & Hc & Kw & Kh).
  exists shape. split; [exact Hs |].
  apply app_inv_head in Hs. injection Hs as <-.
  vm_compute. intuition discriminate.
Defined.

(** ** Rendering *)

Lemma ratioForLine_pairs (W H : Q) (k : nat) :
  forall normalized_pts : list Q,
    length normalized_pts = (2 * k)%nat ->
    exists pts,
      ratioForLine W H normalized_pts = Some pts
      /\ length pts = length normalized_pts
      /\ forall i v, normalized_pts !! i = Some v ->
                     pts !! i = Some (v * (if Nat.even i then W else H)).
Proof.
  induction k as [| k IH]; intros n Hn.
  - destruct n; [| discriminate]. exists []. repeat split. intros i v Hi.
    rewrite lookup_nil in Hi. discriminate.
  - destruct n as [| nx [| ny rest]]; try (simpl in Hn; lia).
    destruct (IH rest) as (pts & Hr & Hlen & Hpts); [simpl in Hn; lia |].
    exists (denormX W nx :: denormY H ny :: pts). simpl. rewrite Hr.
    split; [reflexivity |]. split; [simpl; lia |].
    intros [| [| i]] v Hi; simpl in Hi.
    + injection Hi as <-. reflexivity.
    + injection Hi as <-. reflexivity.
    + simpl. apply Hpts. exact Hi.
Qed.

Lemma ratioForLine_odd (W H : Q) (k : nat) :
  forall normalized_pts : list Q,
    length normalized_pts = S (2 * k) -> ratioForLine W H normalized_pts = None.
Proof.
  induction k as [| k IH]; intros n Hn.
  - destruct n as [| nx [| ny rest]]; try discriminate. reflexivity.
  - destruct n as [| nx [| ny rest]]; try (simpl in Hn; lia).
    simpl. rewrite (IH rest); [reflexivity | simpl in Hn; lia].
Qed.

(** C2, as the code has it.  At every stage size W x H the shape layer
    draws a stroke of whole points with each x at its normalized value
    times W and each y at its normalized value times H, a circle with
    centre and radius, and a rectangle with origin and size, scaled the
    same way (a radius scales with W); the image layer draws an image at
    x times W, y times H with width times W.  An image's pixel height is
    its normalized height times H only until its asset has loaded; from
    then on it is the pixel width times the asset's height over width,
    whatever the stored height and H.  Every stroke the widget stores
    passes the stroke test and holds whole points. *)
Theorem render_scales_with_stage (W H : Q) :
  (forall l,
     isStrokeTool (line_tool l) = true ->
     Nat.Even (length (line_points l)) ->
     exists p pts,
       renderShape W H (SLine l) = Some (KLine p)
       /\ lp_points p = Some pts
       /\ length pts = length (line_points l)
       /\ forall i v, line_points l !! i = Some v ->
                      pts !! i = Some (v * (if Nat.even i then W else H)))
  /\ (forall c,
        renderShape W H (SCircle c)
        = Some (KCircle (circle_x (circ_circle c) * W) (circle_y (circ_circle c) * H)
                  (circle_radius (circ_circle c) * W) (circ_color c) (circ_stroke c)))
  /\ (forall r,
        renderShape W H (SRect r)
        = Some (KRect (rectangle_x (rect_rectangle r) * W)
                  (rectangle_y (rect_rectangle r) * H)
                  (rectangle_width (rect_rectangle r) * W)
                  (rectangle_height (rect_rectangle r) * H)
                  (rect_color r) (rect_stroke r)))
  /\ (forall shape imgEl,
        ki_x (RenderImageBase shape W H imgEl) = img_x shape * W
        /\ ki_y (RenderImageBase shape W H imgEl) = img_y shape * H
        /\ ki_width (RenderImageBase shape W H imgEl) = img_width shape * W)
  /\ (forall shape,
        ki_height (RenderImageBase shape W H None) = img_height shape * H)
  /\ (forall shape el,
        ki_height (RenderImageBase shape W H (Some el))
        = img_width shape * W * (el_height el / el_width el))
  /\ (forall w h evs s,
        s ∈ shapes (run (initialState w h) evs) -> shape_wf s /\ handler_made s).
Proof.
  split; [| split; [| split; [| split; [| split; [| split]]]]]; try reflexivity.
  - intros l Hl [k Hk].
    destruct (ratioForLine_pairs W H k (line_points l) Hk) as (pts & Hr & Hlen & Hpts).
    unfold renderShape. simpl. unfold isStrokeTool in Hl. rewrite Hl.
    eexists. exists pts. split; [reflexivity |]. simpl. auto.
  - intros shape imgEl. repeat split.
  - intros w h evs s Hs.
    destruct (run_Inv evs _ (initial_Inv w h)) as [_ Hall].
    rewrite Forall_forall in Hall. apply list_elem_of_In in Hs.
    destruct (Hall s Hs) as (_ & Hw & Hm).
    split; assumption.
Qed.

Lemma render_scales_with_stage_witness :
  isStrokeTool (line_tool sample_stroke) = true
  /\ Nat.Even (length (line_points sample_stroke))
  /\ (exists p pts,
        renderShape 800 600 (SLine sample_stroke) = Some (KLine p)
        /\ lp_points p = Some pts
        /\ length pts = length (line_points sample_stroke)
        /\ forall i v, line_points sample_stroke !! i = Some v ->
                       pts !! i = Some (v * (if Nat.even i then 800 else 600)))
  /\ SLine (mkLineShape Pen "#222" 3
              (normalized (stageW sample_state) (stageH sample_state) sample_pos) None)
       ∈ shapes (run (initialState 880 872) [EvMouseDown (Some sample_pos)])
  /\ shape_wf (SLine (mkLineShape Pen "#222" 3
                 (normalized (stageW sample_state) (stageH sample_state) sample_pos) None))
  /\ handler_made (SLine (mkLineShape Pen "#222" 3
                 (normalized (stageW sample_state) (stageH sample_state) sample_pos) None)).
Proof.
  assert (He : Nat.Even (length (line_points sample_stroke))) by (exists 2%nat; reflexivity).
  assert (Hin : SLine (mkLineShape Pen "#222" 3
                   (normalized (stageW sample_state) (stageH sample_state) sample_pos) None)
                ∈ shapes (run (initialState 880 872) [EvMouseDown (Some sample_pos)]))
    by apply list_elem_of_here.
  split; [reflexivity |]. split; [exact He |]. split; [| split; [exact Hin |]].
  - exact (proj1 (render_scales_with_stage 800 600) sample_stroke eq_refl He).
  - exact (proj2 (proj2 (proj2 (proj2 (proj2 (proj2 (render_scales_with_stage 800 600))))))
             880 872 [EvMouseDown (Some sample_pos)] _ Hin).
Defined.

(** C2 fails at a loaded image.  The image of [sample_resized] was
    dropped, loaded and corrected on a
    stage of 800 x 600, which then shrank to 800 x 300: it is still
    drawn 400/3 pixels high, twice its stored height times the stage
    height. *)
Lemma loaded_image_height_not_scaled :
  exists s,
    shapes sample_resized = [SImage s]
    /\ (stageW sample_resized == 800 /\ stageH sample_resized == 300)
    /\ ki_height (RenderImageBase s (stageW sample_resized) (stageH sample_resized)
                    (Some sample_asset)) == 400 / 3
    /\ img_height s * stageH sample_resized == 200 / 3
    /\ ~ (ki_height (RenderImageBase s (stageW sample_resized) (stageH sample_resized)
                       (Some sample_asset))
          == img_height s * stageH sample_resized).
Proof.
  eexists. split; [vm_compute; reflexivity |].
  split; [split; vm_compute; reflexivity |].
  split; [vm_compute; reflexivity |]. split; [vm_compute; reflexivity |].
  intros E. vm_compute in E. discriminate E.
Qed.

(** ** The aspect commit *)

Lemma aspectEffect_commit (shape : ImageShape) (index : nat) (W H : Q)
    (el : HTMLImageElement) (i : nat) (nh : Q) :
  aspectEffect shape index W H (Some el) = Some (i, nh) ->
  i = index
  /\ nh = img_width shape * W * (el_height el / el_width el) / H
  /\ 0.001 < Qabs (nh - img_height shape).
Proof.
  unfold aspectEffect, desiredHByAspect, targetW, Qgtb.
  destruct (Qle_bool _ _) eqn:Hle; simpl; [discriminate |].
  intros [= <- <-]. repeat split.
  apply Qnot_le_lt. intros Hc. apply Qle_bool_iff in Hc.
  exact (eq_true_false_abs _ Hc Hle).
Qed.

Lemma aspectEffect_within_tolerance (shape : ImageShape) (index : nat) (W H : Q)
    (el : HTMLImageElement) :
  Qabs (img_width shape * W * (el_height el / el_width el) / H - img_height shape) <= 0.001 ->
  aspectEffect shape index W H (Some el) = None.
Proof.
  intros Hle. unfold aspectEffect, desiredHByAspect, targetW, Qgtb.
  apply Qle_bool_iff in Hle. rewrite Hle. reflexivity.
Qed.

(** Once the effect has committed, running it again at the same stage
    size with the same asset commits nothing. *)
Lemma aspectEffect_settled (shape : ImageShape) (index : nat) (W H : Q)
    (el : HTMLImageElement) (i : nat) (nh : Q) :
  aspectEffect shape index W H (Some el) = Some (i, nh) ->
  aspectEffect (mkImageShape (img_src shape) (img_x shape) (img_y shape)
                  (img_width shape) nh) index W H (Some el) = None.
Proof.
  intros Hc. destruct (aspectEffect_commit _ _ _ _ _ _ _ Hc) as (_ & -> & _).
  apply aspectEffect_within_tolerance. cbn [img_width img_height].
  generalize (img_width shape * W * (el_height el / el_width el) / H). intros nh.
  apply Qabs_Qle_condition. split; lra.
Qed.

(** C3, at the sample image.  Loading the 3:2 asset on the 800 x 600
    stage commits the normalized height 200 * (2/3) / 600, and the effect
    run again there leaves the state as it is.  After the stage has
    shrunk to 800 x 300 the effect commits again, now 200 * (2/3) / 300:
    the correction is made a second time. *)
Theorem aspect_commit_repeats_after_resize :
  exists s1 s2,
    shapes sample_loaded = [SImage s1]
    /\ img_height s1 == 200 * (2 / 3) / 600
    /\ step sample_loaded (EvImageEffect 0 (Some sample_asset)) = sample_loaded
    /\ shapes (step sample_resized (EvImageEffect 0 (Some sample_asset))) = [SImage s2]
    /\ img_height s2 == 200 * (2 / 3) / 300
    /\ ~ (img_height s2 == img_height s1).
Proof.
  eexists. eexists.
  split; [vm_compute; reflexivity |]. split; [vm_compute; reflexivity |].
  split; [vm_compute; reflexivity |]. split; [vm_compute; reflexivity |].
  split; [vm_compute; reflexivity |].
  intros E. vm_compute in E. discriminate E.
Qed.

(** X17.  At a fixed stage size the effect of a mounted image commits at most
    once: run again with the same asset, it leaves the state as it is. *)
Lemma onImageEffect_idempotent (index : nat) (el : HTMLImageElement) (st : State) :
  onImageEffect index (Some el) (onImageEffect index (Some el) st)
  = onImageEffect index (Some el) st.
Proof.
  destruct (shapes st !! index) as [s |] eqn:Hi.
  2: { assert (E : onImageEffect index (Some el) st = st)
         by (unfold onImageEffect, mountedImage; rewrite Hi; reflexivity).
       rewrite !E. reflexivity. }
  destruct s as [l | c | r | shape];
    try (assert (E : onImageEffect index (Some el) st = st)
           by (unfold onImageEffect, mountedImage; rewrite Hi; reflexivity);
         rewrite !E; reflexivity).
  destruct (aspectEffect shape index (stageW st) (stageH st) (Some el)) as [[i nh] |] eqn:Ha.
  - pose proof (aspectEffect_settled _ _ _ _ _ _ _ Ha) as Hset.
    destruct (aspectEffect_commit _ _ _ _ _ _ _ Ha) as (-> & _ & _).
    assert (E : onImageEffect index (Some el) st
                = set_shapes
                    (<[index := SImage (mkImageShape (img_src shape) (img_x shape)
                                          (img_y shape) (img_width shape) nh)]> (shapes st))
                    st).
    { unfold onImageEffect, mountedImage. rewrite Hi, Ha.
      unfold commitHeightByAspect. rewrite Hi. reflexivity. }
    rewrite E. unfold onImageEffect at 1. unfold mountedImage. cbn [shapes set_shapes].
    rewrite list_lookup_insert_eq by (eapply lookup_lt_Some; exact Hi).
    change (stageW (set_shapes ?u st)) with (stageW st).
    change (stageH (set_shapes ?u st)) with (stageH st).
    rewrite Hset. reflexivity.
  - assert (E : onImageEffect index (Some el) st = st)
      by (unfold onImageEffect, mountedImage; rewrite Hi, Ha; reflexivity).
    rewrite !E. reflexivity.
Qed.

(** * Further properties of the code *)

(** ** Utilities *)

Lemma clamp_inverted (v lo hi : Q) : hi < lo -> clamp v lo hi == lo.
Proof.
  intros Hlt. unfold clamp. apply Q.max_l.
  pose proof (Q.le_min_l hi v). lra.
Qed.

(** X1.  [clamp] is never below [min]; it is at most [max] when the bounds are
    in order, and [min] when they are not; it leaves a value within the
    bounds alone, keeps the order of its arguments and, applied twice,
    does what it does once. *)
Theorem clamp_spec (v lo hi : Q) :
  lo <= clamp v lo hi
  /\ (lo <= hi -> clamp v lo hi <= hi)
  /\ (lo <= v <= hi -> clamp v lo hi == v)
  /\ (hi < lo -> clamp v lo hi == lo)
  /\ (forall v', v <= v' -> clamp v lo hi <= clamp v' lo hi)
  /\ clamp (clamp v lo hi) lo hi == clamp v lo hi.
Proof.
  split; [apply Q.le_max_l |].
  split; [intros H; apply (clamp_bounds v lo hi H) |].
  split; [apply clamp_inside |].
  split; [apply clamp_inverted |]. split.
  - intros v' Hv. unfold clamp.
    apply Q.max_le_compat_l. apply Q.min_le_compat_l. exact Hv.
  - destruct (Qlt_le_dec hi lo) as [Hlt | Hle].
    + rewrite (clamp_inverted (clamp v lo hi) lo hi Hlt).
      symmetry. apply clamp_inverted. exact Hlt.
    + apply clamp_inside. apply clamp_bounds. exact Hle.
Qed.

Lemma clamp_spec_witness :
  (0 <= 1 /\ clamp 7 0 1 <= 1)
  /\ (0 <= 0.5 <= 1 /\ clamp 0.5 0 1 == 0.5)
  /\ (1 < 3 /\ clamp 2 3 1 == 3)
  /\ (-4 <= 0.5 /\ clamp (-4) 0 1 <= clamp 0.5 0 1).
Proof.
  assert (H1 : 0 <= 1) by lra.
  assert (H2 : 0 <= 0.5 <= 1) by lra.
  assert (H3 : 1 < 3) by lra.
  assert (H4 : -4 <= 0.5) by lra.
  split; [split; [exact H1 |] | split; [split; [exact H2 |] |
    split; [split; [exact H3 |] | split; [exact H4 |]]]].
  - exact (proj1 (proj2 (clamp_spec 7 0 1)) H1).
  - exact (proj1 (proj2 (proj2 (clamp_spec 0.5 0 1))) H2).
  - exact (proj1 (proj2 (proj2 (proj2 (clamp_spec 2 3 1)))) H3).
  - exact (proj1 (proj2 (proj2 (proj2 (proj2 (clamp_spec (-4) 0 1))))) 0.5 H4).
Defined.

(** X2.  [ratioForLine] gives points exactly for a list of even length, as
    many as it was given; at an odd length the last product is NaN. *)
Theorem ratioForLine_defined (W H : Q) (normalized_pts : list Q) :
  (Nat.Even (length normalized_pts) ->
     exists pts, ratioForLine W H normalized_pts = Some pts
                 /\ length pts = length normalized_pts)
  /\ (Nat.Odd (length normalized_pts) -> ratioForLine W H normalized_pts = None).
Proof.
  split.
  - intros [k Hk].
    destruct (ratioForLine_pairs W H k normalized_pts Hk) as (pts & Hr & Hlen & _).
    exists pts. split; assumption.
  - intros [k Hk]. apply (ratioForLine_odd W H k). lia.
Qed.

Lemma ratioForLine_defined_witness :
  (Nat.Even (length [0.5; 0.5; 1; 0])
   /\ exists pts, ratioForLine 800 600 [0.5; 0.5; 1; 0] = Some pts
                  /\ length pts = length [0.5; 0.5; 1; 0])
  /\ (Nat.Odd (length [0.5; 0.5; 1]) /\ ratioForLine 800 600 [0.5; 0.5; 1] = None).
Proof.
  assert (He : Nat.Even (length [0.5; 0.5; 1; 0])) by (exists 2%nat; reflexivity).
  assert (Ho : Nat.Odd (length [0.5; 0.5; 1])) by (exists 1%nat; reflexivity).
  split; [split; [exact He |] | split; [exact Ho |]].
  - exact (proj1 (ratioForLine_defined 800 600 [0.5; 0.5; 1; 0]) He).
  - exact (proj2 (ratioForLine_defined 800 600 [0.5; 0.5; 1]) Ho).
Defined.

(** X3.  The [tool] field discriminates the union: the sixteen values of the
    enum are distinct, a shape passes the stroke test exactly when it is
    a line of the pen, highlight or eraser tool, and the image test
    exactly when it is an image. *)
Theorem tool_discriminates :
  (forall a b, ToolType_value a = ToolType_value b -> a = b)
  /\ (forall s,
        is_stroke_tag (shape_tool s) = true
        <-> exists l, s = SLine l
                      /\ (line_tool l = Pen \/ line_tool l = Highlight \/ line_tool l = Eraser))
  /\ (forall s,
        String.eqb (shape_tool s) "Image" = true <-> exists img, s = SImage img).
Proof.
  split; [| split].
  - intros a b. destruct a, b; vm_compute; intros E; try reflexivity; discriminate E.
  - intros s. split.
    + intros Hs. destruct (stroke_tag_line s Hs) as (l & -> & Hl).
      exists l. split; [reflexivity |]. apply isStrokeTool_spec. exact Hl.
    + intros (l & -> & Hl). apply isStrokeTool_spec in Hl. exact Hl.
  - intros s. split.
    + destruct s as [l | c | r | img]; simpl; intros Hs.
      * destruct (line_tool l); vm_compute in Hs; discriminate Hs.
      * vm_compute in Hs. discriminate Hs.
      * vm_compute in Hs. discriminate Hs.
      * exists img. reflexivity.
    + intros (img & ->). reflexivity.
Qed.

Lemma tool_discriminates_witness :
  (ToolType_value Pen = ToolType_value Pen /\ Pen = Pen)
  /\ (is_stroke_tag (shape_tool (SLine sample_stroke)) = true
      /\ exists l, SLine sample_stroke = SLine l
                   /\ (line_tool l = Pen \/ line_tool l = Highlight \/ line_tool l = Eraser)).
Proof.
  split; [split; [reflexivity |] | split; [reflexivity |]].
  - exact (proj1 tool_discriminates Pen Pen eq_refl).
  - exact (proj1 (proj1 (proj2 tool_discriminates) (SLine sample_stroke)) eq_refl).
Defined.

(** ** Sizing and position *)

Lemma baseWidth_set_size (s : Size) (st : State) : baseWidth (set_size s st) = baseWidth st.
Proof. reflexivity. Qed.

(** X4.  A resize-stop commits the size the element reports when that size
    is within the bounds, the minimum when it is below and the base size
    when it is above; committing the committed size again changes
    nothing. *)
Theorem resize_stop_commits (newW newH : Q) (st : State) :
  (280 <= newW <= baseWidth st ->
     width (st_size (onResizeStop newW newH st)) == newW)
  /\ (240 <= newH <= baseHeight st ->
        height (st_size (onResizeStop newW newH st)) == newH)
  /\ (newW <= 280 -> width (st_size (onResizeStop newW newH st)) == 280)
  /\ (newH <= 240 -> height (st_size (onResizeStop newW newH st)) == 240)
  /\ (baseWidth st <= newW ->
        width (st_size (onResizeStop newW newH st)) == baseWidth st)
  /\ (baseHeight st <= newH ->
        height (st_size (onResizeStop newW newH st)) == baseHeight st)
  /\ (width (st_size (onResizeStop
                        (width (st_size (onResizeStop newW newH st)))
                        (height (st_size (onResizeStop newW newH st)))
                        (onResizeStop newW newH st)))
      == width (st_size (onResizeStop newW newH st))
      /\ height (st_size (onResizeStop
                            (width (st_size (onResizeStop newW newH st)))
                            (height (st_size (onResizeStop newW newH st)))
                            (onResizeStop newW newH st)))
         == height (st_size (onResizeStop newW newH st))).
Proof.
  destruct (base_lower st) as [Bw Bh].
  unfold onResizeStop. cbn [st_size set_size width height].
  split; [apply clamp_inside |]. split; [apply clamp_inside |].
  split; [apply clamp_below; exact Bw |]. split; [apply clamp_below; exact Bh |].
  split; [apply clamp_above; exact Bw |]. split; [apply clamp_above; exact Bh |].
  rewrite !baseWidth_set_size.
  change (baseHeight (set_size ?s st)) with (baseHeight st).
  split; apply clamp_inside; apply clamp_bounds; assumption.
Qed.

Lemma resize_stop_commits_witness :
  (280 <= 500 <= baseWidth sample_state
   /\ width (st_size (onResizeStop 500 100 sample_state)) == 500)
  /\ (100 <= 240 /\ height (st_size (onResizeStop 500 100 sample_state)) == 240)
  /\ (baseWidth sample_state <= 5000
      /\ width (st_size (onResizeStop 5000 100 sample_state)) == baseWidth sample_state).
Proof.
  assert (H1 : 280 <= 500 <= baseWidth sample_state) by (vm_compute; split; discriminate).
  assert (H2 : 100 <= 240) by lra.
  assert (H3 : baseWidth sample_state <= 5000) by (vm_compute; discriminate).
  split; [split; [exact H1 |] | split; [split; [exact H2 |] | split; [exact H3 |]]].
  - exact (proj1 (resize_stop_commits 500 100 sample_state) H1).
  - exact (proj1 (proj2 (proj2 (proj2 (resize_stop_commits 500 100 sample_state)))) H2).
  - exact (proj1 (proj2 (proj2 (proj2 (proj2
             (resize_stop_commits 5000 100 sample_state))))) H3).
Defined.

(** X5.  A viewport change never enlarges the modal: each dimension stays as
    it is when it fits the new base size and becomes the base size when
    it does not; the store, the tool and the drawing flag are not
    touched, and the same viewport reported again changes nothing. *)
Theorem viewport_change_only_shrinks (w h : Q) (st : State) :
  (width (st_size (onViewportChange w h st)) <= width (st_size st)
   /\ height (st_size (onViewportChange w h st)) <= height (st_size st))
  /\ (width (st_size st) <= baseWidth (set_window w h st) ->
        width (st_size (onViewportChange w h st)) == width (st_size st))
  /\ (height (st_size st) <= baseHeight (set_window w h st) ->
        height (st_size (onViewportChange w h st)) == height (st_size st))
  /\ (baseWidth (set_window w h st) <= width (st_size st) ->
        width (st_size (onViewportChange w h st)) == baseWidth (set_window w h st))
  /\ (baseHeight (set_window w h st) <= height (st_size st) ->
        height (st_size (onViewportChange w h st)) == baseHeight (set_window w h st))
  /\ (shapes (onViewportChange w h st) = shapes st
      /\ toolActive (onViewportChange w h st) = toolActive st
      /\ isDrawing (onViewportChange w h st) = isDrawing st)
  /\ (width (st_size (onViewportChange w h (onViewportChange w h st)))
      == width (st_size (onViewportChange w h st))
      /\ height (st_size (onViewportChange w h (onViewportChange w h st)))
         == height (st_size (onViewportChange w h st))).
Proof.
  unfold onViewportChange, sizeEffect. cbn [st_size set_size set_window width height].
  split; [split; apply Q.le_min_l |].
  split; [apply Q.min_l |]. split; [apply Q.min_l |].
  split; [apply Q.min_r |]. split; [apply Q.min_r |].
  split; [repeat split |].
  split; apply Q.min_l; apply Q.le_min_r.
Qed.

Lemma viewport_change_only_shrinks_witness :
  (width (st_size sample_state) <= baseWidth (set_window 2000 2000 sample_state)
   /\ width (st_size (onViewportChange 2000 2000 sample_state))
      == width (st_size sample_state))
  /\ (baseWidth (set_window 500 500 sample_state) <= width (st_size sample_state)
      /\ width (st_size (onViewportChange 500 500 sample_state))
         == baseWidth (set_window 500 500 sample_state)).
Proof.
  assert (H1 : width (st_size sample_state) <= baseWidth (set_window 2000 2000 sample_state))
    by (vm_compute; discriminate).
  assert (H2 : baseWidth (set_window 500 500 sample_state) <= width (st_size sample_state))
    by (vm_compute; discriminate).
  split; [split; [exact H1 |] | split; [exact H2 |]].
  - exact (proj1 (proj2 (viewport_change_only_shrinks 2000 2000 sample_state)) H1).
  - exact (proj1 (proj2 (proj2 (proj2
             (viewport_change_only_shrinks 500 500 sample_state)))) H2).
Defined.

(** X6.  At the first render the modal is placed with non-negative
    coordinates.  In a viewport at least 280 wide it is centred
    horizontally and lies within the viewport's width, with a margin of
    40 from 360 on; in a narrower viewport it sits at the left edge, 280
    wide, and overflows.  Likewise vertically, with 240, 376 and a
    margin of 68. *)
Theorem initial_position_fits (w h : Q) :
  (0 <= vx (initialPos (initialState w h)) /\ 0 <= vy (initialPos (initialState w h)))
  /\ (280 <= w ->
        vx (initialPos (initialState w h)) * 2 + width (st_size (initialState w h)) == w
        /\ vx (initialPos (initialState w h)) + width (st_size (initialState w h)) <= w)
  /\ (240 <= h ->
        vy (initialPos (initialState w h)) * 2 + height (st_size (initialState w h)) == h
        /\ vy (initialPos (initialState w h)) + height (st_size (initialState w h)) <= h)
  /\ (360 <= w ->
        vx (initialPos (initialState w h)) == 40
        /\ width (st_size (initialState w h)) == w - 80)
  /\ (376 <= h ->
        vy (initialPos (initialState w h)) == 68
        /\ height (st_size (initialState w h)) == h - 136)
  /\ (w < 280 ->
        vx (initialPos (initialState w h)) == 0
        /\ width (st_size (initialState w h)) == 280)
  /\ (h < 240 ->
        vy (initialPos (initialState w h)) == 0
        /\ height (st_size (initialState w h)) == 240).
Proof.
  unfold initialPos, initialState, baseWidth, baseHeight,
    PADDING_H, PADDING_V, FOOTER_HEIGHT.
  cbn [vx vy st_size set_size width height windowW windowH].
  set (W := Qmax 280 (w - 40 * 2)). set (H := Qmax 240 (h - 56 - 40 * 2)).
  set (dx := (w - W) / 2). set (dy := (h - H) / 2).
  assert (Ex : dx == (w - W) * (1 # 2)) by (unfold dx; field).
  assert (Ey : dy == (h - H) * (1 # 2)) by (unfold dy; field).
  set (px := Qmax 0 dx). set (py := Qmax 0 dy).
  destruct (Q.max_spec 280 (w - 40 * 2)) as [[W1 W2] | [W1 W2]]; fold W in W2;
    destruct (Q.max_spec 240 (h - 56 - 40 * 2)) as [[H1 H2] | [H1 H2]]; fold H in H2;
    destruct (Q.max_spec 0 dx) as [[X1 X2] | [X1 X2]]; fold px in X2;
    destruct (Q.max_spec 0 dy) as [[Y1 Y2] | [Y1 Y2]]; fold py in Y2;
    clearbody px py; clearbody dx dy; clearbody W H; repeat split; intros; lra.
Qed.

Lemma initial_position_fits_witness :
  (360 <= 880
   /\ vx (initialPos (initialState 880 872)) == 40
   /\ width (st_size (initialState 880 872)) == 880 - 80)
  /\ (200 < 280
      /\ vx (initialPos (initialState 200 872)) == 0
      /\ width (st_size (initialState 200 872)) == 280).
Proof.
  assert (H1 : 360 <= 880) by lra. assert (H2 : 200 < 280) by lra.
  split; [split; [exact H1 |] | split; [exact H2 |]].
  - exact (proj1 (proj2 (proj2 (proj2 (initial_position_fits 880 872)))) H1).
  - exact (proj1 (proj2 (proj2 (proj2 (proj2 (proj2 (initial_position_fits 200 872)))))) H2).
Defined.

(** X7.  While the header is dragged the position is the last one
    react-draggable reported with the modal's rectangle at hand,
    whatever came before; callbacks without the rectangle leave the
    position as it was. *)
Theorem modal_position_follows_drag (position : Vector2d) (evs : list ModalDragEvent) :
  (Forall (fun ev => md_rect ev = None) evs -> foldl modalDrag position evs = position)
  /\ (forall ev rest,
        is_Some (md_rect ev) ->
        Forall (fun ev' => md_rect ev' = None) rest ->
        foldl modalDrag position (evs ++ ev :: rest) = md_uiData ev).
Proof.
  assert (Hnone : forall rest p,
             Forall (fun ev' => md_rect ev' = None) rest -> foldl modalDrag p rest = p).
  { induction rest as [| ev rest IH]; intros p Hall; [reflexivity |].
    inversion Hall as [| ? ? Hev Hrest]; subst. simpl.
    rewrite IH by exact Hrest.
    destruct ev as [r u | r u]; simpl in Hev; subst r; reflexivity. }
  split; [apply Hnone |].
  intros ev rest [r Hr] Hrest. rewrite foldl_app. simpl.
  rewrite Hnone by exact Hrest.
  destruct ev as [r' u | r' u]; simpl in Hr; subst r'; simpl; destruct u; reflexivity.
Qed.

Lemma modal_position_follows_drag_witness :
  (Forall (fun ev => md_rect ev = None) [ModalDragStart None (mkVector2d 9 9)]
   /\ foldl modalDrag (mkVector2d 40 68) [ModalDragStart None (mkVector2d 9 9)]
      = mkVector2d 40 68)
  /\ (is_Some (md_rect (ModalDragStop (Some (mkDOMRect 0 0)) (mkVector2d 12 30)))
      /\ foldl modalDrag (mkVector2d 40 68)
           ([ModalDragStart None (mkVector2d 9 9)]
            ++ ModalDragStop (Some (mkDOMRect 0 0)) (mkVector2d 12 30)
               :: [ModalDragStop None (mkVector2d 1 1)])
         = md_uiData (ModalDragStop (Some (mkDOMRect 0 0)) (mkVector2d 12 30))).
Proof.
  assert (H1 : Forall (fun ev => md_rect ev = None) [ModalDragStart None (mkVector2d 9 9)])
    by (repeat constructor).
  assert (H2 : is_Some (md_rect (ModalDragStop (Some (mkDOMRect 0 0)) (mkVector2d 12 30))))
    by (eexists; reflexivity).
  assert (H3 : Forall (fun ev' => md_rect ev' = None) [ModalDragStop None (mkVector2d 1 1)])
    by (repeat constructor).
  split; [split; [exact H1 |] | split; [exact H2 |]].
  - exact (proj1 (modal_position_follows_drag (mkVector2d 40 68) _) H1).
  - exact (proj2 (modal_position_follows_drag (mkVector2d 40 68)
                    [ModalDragStart None (mkVector2d 9 9)]) _ _ H2 H3).
Defined.

(** ** The store only grows *)

Lemma shape_extends_refl (s : AnyShape) : shape_extends s s.
Proof. destruct s; simpl; repeat split; reflexivity. Qed.

Lemma shape_extends_trans (a b c : AnyShape) :
  shape_extends a b -> shape_extends b c -> shape_extends a c.
Proof.
  destruct a, b, c; simpl; try tauto; try congruence.
  - intros (T1 & C1 & S1 & K1 & P1) (T2 & C2 & S2 & K2 & P2).
    repeat split; try congruence. etransitivity; eassumption.
  - intros [E1 E2] [E3 E4]. split; congruence.
Qed.

Lemma store_extends_refl (prev : list AnyShape) : store_extends prev prev.
Proof. intros i s Hi. exists s. split; [exact Hi | apply shape_extends_refl]. Qed.

Lemma store_extends_trans (a b c : list AnyShape) :
  store_extends a b -> store_extends b c -> store_extends a c.
Proof.
  intros Hab Hbc i s Hi.
  destruct (Hab i s Hi) as (s' & Hi' & E1).
  destruct (Hbc i s' Hi') as (s'' & Hi'' & E2).
  exists s''. split; [exact Hi'' | eapply shape_extends_trans; eassumption].
Qed.

Lemma store_extends_app (prev added : list AnyShape) : store_extends prev (prev ++ added).
Proof.
  intros i s Hi. exists s. split; [| apply shape_extends_refl].
  apply lookup_app_l_Some. exact Hi.
Qed.

Lemma store_extends_insert (prev : list AnyShape) (i : nat) (s s' : AnyShape) :
  prev !! i = Some s -> shape_extends s s' -> store_extends prev (<[i := s']> prev).
Proof.
  intros Hi He j t Hj. destruct (decide (i = j)) as [<- | Hne].
  - exists s'. split.
    + apply list_lookup_insert_eq. eapply lookup_lt_Some. exact Hi.
    + congruence.
  - exists t. split; [| apply shape_extends_refl].
    rewrite list_lookup_insert_ne by exact Hne. exact Hj.
Qed.

Lemma moveUpdater_extends (W H : Q) (pos : Vector2d) (prev : list AnyShape) :
  store_extends prev (moveUpdater W H pos prev)
  /\ length (moveUpdater W H pos prev) = length prev.
Proof.
  unfold moveUpdater.
  destruct (length prev =? 0)%nat; [split; [apply store_extends_refl | reflexivity] |].
  destruct (prev !! (length prev - 1)%nat) as [last |] eqn:Hlast;
    [| split; [apply store_extends_refl | reflexivity]].
  destruct (is_stroke_tag (shape_tool last));
    [| split; [apply store_extends_refl | reflexivity]].
  destruct last as [l | | |]; try (split; [apply store_extends_refl | reflexivity]).
  split; [| apply length_insert].
  eapply store_extends_insert; [exact Hlast |].
  simpl. repeat split. apply prefix_app_r. reflexivity.
Qed.

Lemma dropAtPointer_extends src stageRef e (st : State) :
  store_extends (shapes st) (shapes (dropAtPointer src stageRef e st))
  /\ (length (shapes st) <= length (shapes (dropAtPointer src stageRef e st))
      <= S (length (shapes st)))%nat.
Proof.
  rewrite dropAtPointer_shapes. split; [apply store_extends_app |].
  rewrite length_app. destruct stageRef as [stage |]; simpl; [| lia].
  destruct (pointerPositionAt stage e); simpl; lia.
Qed.

Lemma step_store_extends (st : State) (ev : Event) :
  store_extends (shapes st) (shapes (step st ev))
  /\ (length (shapes st) <= length (shapes (step st ev)) <= S (length (shapes st)))%nat.
Proof.
  assert (Hsame : store_extends (shapes st) (shapes st)
                  /\ (length (shapes st) <= length (shapes st) <= S (length (shapes st)))%nat)
    by (split; [apply store_extends_refl | lia]).
  destruct ev; simpl; try exact Hsame.
  - unfold onMouseDown. destruct (isStrokeTool (toolActive st)); simpl; [| exact Hsame].
    destruct pointer; simpl; [| exact Hsame].
    split; [apply store_extends_app | rewrite length_app; simpl; lia].
  - unfold onMouseMove. destruct (isDrawing st); simpl; [| exact Hsame].
    destruct pointer as [pos |]; simpl; [| exact Hsame].
    destruct (moveUpdater_extends (stageW st) (stageH st) pos (shapes st)) as [He Hl].
    split; [exact He | lia].
  - unfold onDrop. repeat case_match; try exact Hsame; apply dropAtPointer_extends.
  - unfold dropImageFromUpload. case_match; try exact Hsame. apply dropAtPointer_extends.
  - unfold onMobileDrop. repeat case_match; try exact Hsame. apply dropAtPointer_extends.
  - unfold onImageDrag, mountedImage.
    destruct (shapes st !! index) as [[| | | img] |] eqn:Hi; try exact Hsame.
    destruct phase; simpl; try exact Hsame.
    unfold handleDragEnd, commitPos. rewrite Hi. simpl.
    split; [| rewrite length_insert; lia].
    eapply store_extends_insert; [exact Hi |]. simpl. split; reflexivity.
  - unfold onImageEffect, mountedImage.
    destruct (shapes st !! index) as [[| | | img] |] eqn:Hi; try exact Hsame.
    destruct (aspectEffect img index (stageW st) (stageH st) imgEl) as [[i nh] |] eqn:Ha;
      [| exact Hsame].
    unfold commitHeightByAspect.
    destruct (shapes st !! i) as [[| | | img'] |] eqn:Hi'; try exact Hsame.
    simpl. split; [| rewrite length_insert; lia].
    eapply store_extends_insert; [exact Hi' |]. simpl. split; reflexivity.
Qed.

(** X8.  No event removes, moves or replaces a shape.  After any sequence of
    events every shape that was in the store is still at its index: a
    stroke with the same tool, colour and width and its old points at the
    front of its points, an image with the same source and width.  Each
    event adds at most one shape. *)
Theorem store_only_grows (st : State) (evs : list Event) :
  store_extends (shapes st) (shapes (run st evs))
  /\ (length (shapes st) <= length (shapes (run st evs))
      <= length (shapes st) + length evs)%nat.
Proof.
  revert st. induction evs as [| ev evs IH]; intros st.
  - simpl. split; [apply store_extends_refl | lia].
  - simpl. destruct (step_store_extends st ev) as [E1 L1].
    destruct (IH (step st ev)) as [E2 L2]. fold (run (step st ev) evs) in *.
    split; [eapply store_extends_trans; eassumption | lia].
Qed.

(** ** Gestures *)

Lemma set_isDrawing_same (st : State) : set_isDrawing (isDrawing st) st = st.
Proof. destruct st; reflexivity. Qed.

Lemma set_shapes_same (st : State) : set_shapes (shapes st) st = st.
Proof. destruct st; reflexivity. Qed.

(** X9.  With no stroke tool selected and no gesture under way, the pointer
    draws nothing: pointer-down, pointer-move and pointer-up events, in
    any number and order, leave the whole state as it is. *)
Theorem pointer_inert_without_stroke_tool (st : State) (evs : list Event) :
  isStrokeTool (toolActive st) = false ->
  isDrawing st = false ->
  Forall (fun ev => is_pointer_event ev = true) evs ->
  run st evs = st.
Proof.
  intros Ht Hd Hall. induction Hall as [| ev evs Hev _ IH]; [reflexivity |].
  simpl. fold (run (step st ev) evs).
  assert (E : step st ev = st).
  { destruct ev; try discriminate Hev; simpl.
    - unfold onMouseDown. rewrite Ht. reflexivity.
    - unfold onMouseMove. rewrite Hd. reflexivity.
    - unfold onMouseUp. rewrite <- Hd. apply set_isDrawing_same. }
  rewrite E. exact IH.
Qed.

Lemma pointer_inert_without_stroke_tool_witness :
  isStrokeTool (toolActive (set_toolActive Cursor sample_state)) = false
  /\ isDrawing (set_toolActive Cursor sample_state) = false
  /\ Forall (fun ev => is_pointer_event ev = true)
       [EvMouseDown (Some sample_pos); EvMouseMove (Some sample_pos); EvMouseUp]
  /\ run (set_toolActive Cursor sample_state)
       [EvMouseDown (Some sample_pos); EvMouseMove (Some sample_pos); EvMouseUp]
     = set_toolActive Cursor sample_state.
Proof.
  assert (H : Forall (fun ev => is_pointer_event ev = true)
                [EvMouseDown (Some sample_pos); EvMouseMove (Some sample_pos); EvMouseUp])
    by (repeat constructor).
  split; [reflexivity |]. split; [reflexivity |]. split; [exact H |].
  exact (pointer_inert_without_stroke_tool (set_toolActive Cursor sample_state) _
           eq_refl eq_refl H).
Defined.

Lemma moves_from_not_drawing (moves : list (option Vector2d)) (st : State) :
  isDrawing st = false -> moves_from st moves = st.
Proof.
  intros Hd. induction moves as [| m moves IH]; [reflexivity |].
  unfold moves_from. simpl. fold (moves_from (onMouseMove m st) moves).
  assert (E : onMouseMove m st = st) by (unfold onMouseMove; rewrite Hd; reflexivity).
  rewrite E. exact IH.
Qed.

Lemma moves_from_no_stroke (moves : list (option Vector2d)) (st : State) :
  last_is_stroke (shapes st) = false -> moves_from st moves = st.
Proof.
  intros Hl. induction moves as [| m moves IH]; [reflexivity |].
  unfold moves_from. simpl. fold (moves_from (onMouseMove m st) moves).
  assert (E : onMouseMove m st = st).
  { unfold onMouseMove. destruct (isDrawing st); simpl; [| reflexivity].
    destruct m as [pos |]; [| reflexivity].
    rewrite moveUpdater_other by exact Hl. apply set_shapes_same. }
  rewrite E. exact IH.
Qed.

(** X10.  Pointer-up ends the gesture: the move events after it, with or
    without a position, change nothing until the next pointer-down. *)
Theorem moves_ignored_after_up (st : State) (moves : list (option Vector2d)) :
  moves_from (onMouseUp st) moves = onMouseUp st.
Proof. apply moves_from_not_drawing. reflexivity. Qed.

(** X11.  An image dropped in the middle of a gesture ends the growth of the
    stroke: the image is now the last shape, and the move events that
    follow change nothing although the drawing flag is still set. *)
Theorem drop_ends_stroke_growth
    (st : State) (stage : KonvaStage) (e : DragEvent) (src : string) (pos : Vector2d)
    (moves : list (option Vector2d)) :
  pointerPositionAt stage e = Some pos ->
  isDrawing (dropAtPointer src (Some stage) e st) = isDrawing st
  /\ moves_from (dropAtPointer src (Some stage) e st) moves
     = dropAtPointer src (Some stage) e st.
Proof.
  intros Hp. split; [unfold dropAtPointer; rewrite Hp; reflexivity |].
  apply moves_from_no_stroke. rewrite dropAtPointer_shapes. simpl. rewrite Hp.
  unfold last_is_stroke. rewrite length_app. simpl.
  replace (length (shapes st) + 1 - 1)%nat with (length (shapes st)) by lia.
  rewrite list_lookup_middle by reflexivity. reflexivity.
Qed.

Lemma drop_ends_stroke_growth_witness :
  pointerPositionAt sample_stage (mkDragEvent 100 100 None) = Some (mkVector2d 100 100)
  /\ isDrawing (dropAtPointer "a.png" (Some sample_stage) (mkDragEvent 100 100 None)
                  (onMouseDown (Some sample_pos) sample_state)) = true
  /\ moves_from (dropAtPointer "a.png" (Some sample_stage) (mkDragEvent 100 100 None)
                   (onMouseDown (Some sample_pos) sample_state)) sample_moves
     = dropAtPointer "a.png" (Some sample_stage) (mkDragEvent 100 100 None)
         (onMouseDown (Some sample_pos) sample_state).
Proof.
  split; [reflexivity |]. split; [reflexivity |].
  exact (proj2 (drop_ends_stroke_growth (onMouseDown (Some sample_pos) sample_state)
                  sample_stage (mkDragEvent 100 100 None) "a.png" (mkVector2d 100 100)
                  sample_moves eq_refl)).
Defined.

(** ** What is drawn *)

Lemma scaled_unit (u S : Q) : in_unit u -> 0 <= S -> 0 <= u * S <= S.
Proof. unfold in_unit. intros [H0 H1] HS. split; nra. Qed.

Lemma ratioForLine_within (W H : Q) (l : list Q) :
  0 <= W -> 0 <= H ->
  Forall in_unit l -> Nat.Even (length l) ->
  exists pts,
    ratioForLine W H l = Some pts
    /\ forall j v, pts !! j = Some v -> 0 <= v <= (if Nat.even j then W else H).
Proof.
  intros HW HH Hall [k Hk].
  destruct (ratioForLine_pairs W H k l Hk) as (pts & Hr & Hlen & Hpts).
  exists pts. split; [exact Hr |]. intros j v Hj.
  assert (Hlt : (j < length l)%nat) by (rewrite <- Hlen; eapply lookup_lt_Some; exact Hj).
  destruct (lookup_lt_is_Some_2 l j Hlt) as [u Hu].
  rewrite (Hpts j u Hu) in Hj. injection Hj as <-.
  pose proof (Forall_lookup_1 _ _ _ _ Hall Hu) as Hunit.
  destruct (Nat.even j); apply scaled_unit; assumption.
Qed.

(** X13.  Whatever the widget has stored is drawn on the stage.  In every
    state it reaches and at every stage size, each point of each stroke
    is drawn with its x between 0 and the stage width and its y between
    0 and the stage height, and each image is drawn centred at a point
    of the stage, loaded or not. *)
Theorem drawn_within_stage (w h : Q) (evs : list Event) (W H : Q) (i : nat) (s : AnyShape) :
  0 <= W -> 0 <= H ->
  shapes (run (initialState w h) evs) !! i = Some s ->
  match s with
  | SLine l =>
      exists p pts,
        renderShape W H s = Some (KLine p)
        /\ lp_points p = Some pts
        /\ forall j v, pts !! j = Some v -> 0 <= v <= (if Nat.even j then W else H)
  | SImage img =>
      forall imgEl,
        0 <= ki_centerX (RenderImageBase img W H imgEl) <= W
        /\ 0 <= ki_centerY (RenderImageBase img W H imgEl) <= H
  | SCircle _ | SRect _ => False
  end.
Proof.
  intros HW HH Hi.
  destruct (run_Inv evs _ (initial_Inv w h)) as [_ Hall].
  destruct (Forall_lookup_1 _ _ _ _ Hall Hi) as (Hc & Hwf & Hm).
  destruct s as [l | c | r | img]; simpl in Hc, Hwf, Hm; try exact Hm.
  - destruct (ratioForLine_within W H (line_points l) HW HH Hc Hwf) as (pts & Hr & Hpts).
    unfold renderShape. cbn [shape_tool]. unfold isStrokeTool in Hm. rewrite Hm.
    eexists. exists pts. split; [reflexivity |]. split; [exact Hr | exact Hpts].
  - intros imgEl. destruct Hc as (Hx & Hy & _).
    destruct (RenderImageBase_center img W H imgEl) as [Cx Cy]. rewrite Cx, Cy.
    split; apply scaled_unit; assumption.
Qed.

Lemma drawn_within_stage_witness :
  (0 <= 320 /\ 0 <= 200)
  /\ shapes (run (initialState 880 872) [EvMouseDown (Some (mkVector2d 900 (-3)))]) !! 0%nat
     = Some (SLine (mkLineShape Pen "#222" 3
                      (normalized (stageW sample_state) (stageH sample_state)
                         (mkVector2d 900 (-3))) None))
  /\ exists p pts,
       renderShape 320 200
         (SLine (mkLineShape Pen "#222" 3
                   (normalized (stageW sample_state) (stageH sample_state)
                      (mkVector2d 900 (-3))) None))
       = Some (KLine p)
       /\ lp_points p = Some pts
       /\ forall j v, pts !! j = Some v -> 0 <= v <= (if Nat.even j then 320 else 200).
Proof.
  assert (HW : 0 <= 320) by lra. assert (HH : 0 <= 200) by lra.
  split; [split; assumption |]. split; [reflexivity |].
  exact (drawn_within_stage 880 872 [EvMouseDown (Some (mkVector2d 900 (-3)))] 320 200 0 _
           HW HH eq_refl).
Defined.

(** X14.  In every state the widget reaches, the two layers have one entry per
    stored shape and each shape is drawn by exactly one of them: a
    stroke by the shape layer, as a line whose points are all numbers,
    and an image by the image layer.  The circle and rectangle branches
    of the shape layer are never taken. *)
Theorem each_shape_in_one_layer
    (w h : Q) (evs : list Event) (W H : Q) (imgEls : nat -> option HTMLImageElement)
    (i : nat) (s : AnyShape) :
  shapes (run (initialState w h) evs) !! i = Some s ->
  (length (shapeLayer W H (shapes (run (initialState w h) evs)))
   = length (shapes (run (initialState w h) evs))
   /\ length (imageLayer W H imgEls (shapes (run (initialState w h) evs)))
      = length (shapes (run (initialState w h) evs)))
  /\ ((exists l p pts,
         s = SLine l
         /\ shapeLayer W H (shapes (run (initialState w h) evs)) !! i = Some (Some (KLine p))
         /\ lp_points p = Some pts
         /\ imageLayer W H imgEls (shapes (run (initialState w h) evs)) !! i = Some None)
      \/ (exists img,
            s = SImage img
            /\ shapeLayer W H (shapes (run (initialState w h) evs)) !! i = Some None
            /\ imageLayer W H imgEls (shapes (run (initialState w h) evs)) !! i
               = Some (Some (RenderImageBase img W H (imgEls i))))).
Proof.
  intros Hi. unfold shapeLayer, imageLayer.
  split; [split; [apply length_fmap | apply length_imap] |].
  rewrite list_lookup_fmap, list_lookup_imap, Hi.
  cbn [fmap option_fmap option_map].
  destruct (run_Inv evs _ (initial_Inv w h)) as [_ Hall].
  destruct (Forall_lookup_1 _ _ _ _ Hall Hi) as (_ & Hwf & Hm).
  destruct s as [l | c | r | img]; simpl in Hm; try contradiction.
  - left. destruct Hwf as [k Hk].
    destruct (ratioForLine_pairs W H k (line_points l) Hk) as (pts & Hr & _).
    assert (Himg : String.eqb (shape_tool (SLine l)) "Image" = false)
      by (cbn [shape_tool]; destruct (line_tool l); reflexivity).
    rewrite Himg. unfold renderShape. cbn [shape_tool].
    unfold isStrokeTool in Hm. rewrite Hm.
    eexists. eexists. exists pts.
    split; [reflexivity |]. split; [reflexivity |]. split; [exact Hr | reflexivity].
  - right. exists img. repeat split.
Qed.

Lemma each_shape_in_one_layer_witness :
  shapes (run (initialState 880 872) [EvMouseDown (Some sample_pos)]) !! 0%nat
  = Some (SLine (mkLineShape Pen "#222" 3
                   (normalized (stageW sample_state) (stageH sample_state) sample_pos) None))
  /\ length (shapeLayer 800 600
               (shapes (run (initialState 880 872) [EvMouseDown (Some sample_pos)])))
     = length (shapes (run (initialState 880 872) [EvMouseDown (Some sample_pos)])).
Proof.
  split; [reflexivity |].
  exact (proj1 (proj1 (each_shape_in_one_layer 880 872 [EvMouseDown (Some sample_pos)]
                         800 600 (fun _ => None) 0 _ eq_refl))).
Defined.

(** ** Repositioning, once more *)

(** X15.  An image released on the stage is drawn centred at the release
    point, loaded or not; and of two releases the later one decides:
    the first leaves no trace. *)
Theorem drag_release_round_trip
    (st : State) (index : nat) (img : ImageShape) (p : Vector2d) :
  shapes st !! index = Some (SImage img) ->
  0 < stageW st -> 0 < stageH st ->
  in_stage (stageW st) (stageH st) p ->
  (exists img',
     shapes (onImageDrag DragEnd index p st) !! index = Some (SImage img')
     /\ forall imgEl,
          ki_centerX (RenderImageBase img' (stageW st) (stageH st) imgEl) == vx p
          /\ ki_centerY (RenderImageBase img' (stageW st) (stageH st) imgEl) == vy p)
  /\ (forall p1,
        onImageDrag DragEnd index p (onImageDrag DragEnd index p1 st)
        = onImageDrag DragEnd index p st).
Proof.
  intros Hi HW HH [Hx Hy]. split.
  - rewrite (onImageDrag_end st index p img Hi). cbn [shapes set_shapes].
    eexists. split.
    + apply list_lookup_insert_eq. eapply lookup_lt_Some. exact Hi.
    + intros imgEl.
      match goal with |- context [RenderImageBase ?s _ _ _] =>
        destruct (RenderImageBase_center s (stageW st) (stageH st) imgEl) as [Cx Cy] end.
      rewrite Cx, Cy. cbn [img_x img_y].
      split; apply normalize_denormalize; assumption.
  - intros p1. rewrite (onImageDrag_end st index p1 img Hi).
    erewrite (onImageDrag_end (set_shapes _ st) index p).
    2: { cbn [shapes set_shapes]. apply list_lookup_insert_eq.
         eapply lookup_lt_Some. exact Hi. }
    rewrite (onImageDrag_end st index p img Hi).
    cbn [shapes set_shapes img_src img_width img_height].
    rewrite list_insert_insert_eq. reflexivity.
Qed.

Lemma drag_release_round_trip_witness :
  shapes (set_shapes [SImage (mkImageShape "a.png" 0.5 0.5 0.25 0.25)] sample_state) !! 0%nat
  = Some (SImage (mkImageShape "a.png" 0.5 0.5 0.25 0.25))
  /\ (0 < stageW (set_shapes [SImage (mkImageShape "a.png" 0.5 0.5 0.25 0.25)] sample_state)
      /\ 0 < stageH (set_shapes [SImage (mkImageShape "a.png" 0.5 0.5 0.25 0.25)]
                       sample_state))
  /\ in_stage
       (stageW (set_shapes [SImage (mkImageShape "a.png" 0.5 0.5 0.25 0.25)] sample_state))
       (stageH (set_shapes [SImage (mkImageShape "a.png" 0.5 0.5 0.25 0.25)] sample_state))
       (mkVector2d 200 450)
  /\ onImageDrag DragEnd 0 (mkVector2d 200 450)
       (onImageDrag DragEnd 0 (mkVector2d 700 10)
          (set_shapes [SImage (mkImageShape "a.png" 0.5 0.5 0.25 0.25)] sample_state))
     = onImageDrag DragEnd 0 (mkVector2d 200 450)
         (set_shapes [SImage (mkImageShape "a.png" 0.5 0.5 0.25 0.25)] sample_state).
Proof.
  assert (HW : 0 < stageW (set_shapes [SImage (mkImageShape "a.png" 0.5 0.5 0.25 0.25)]
                             sample_state)) by (vm_compute; reflexivity).
  assert (HH : 0 < stageH (set_shapes [SImage (mkImageShape "a.png" 0.5 0.5 0.25 0.25)]
                             sample_state)) by (vm_compute; reflexivity).
  assert (Hp : in_stage
                 (stageW (set_shapes [SImage (mkImageShape "a.png" 0.5 0.5 0.25 0.25)]
                            sample_state))
                 (stageH (set_shapes [SImage (mkImageShape "a.png" 0.5 0.5 0.25 0.25)]
                            sample_state))
                 (mkVector2d 200 450)) by (vm_compute; intuition discriminate).
  split; [reflexivity |]. split; [split; assumption |]. split; [exact Hp |].
  exact (proj2 (drag_release_round_trip
                  (set_shapes [SImage (mkImageShape "a.png" 0.5 0.5 0.25 0.25)] sample_state)
                  0 (mkImageShape "a.png" 0.5 0.5 0.25 0.25) (mkVector2d 200 450)
                  eq_refl HW HH Hp) (mkVector2d 700 10)).
Defined.

(** ** The aspect commit, once more *)

Lemma aspectEffect_none (shape : ImageShape) (index : nat) (W H : Q)
    (el : HTMLImageElement) :
  aspectEffect shape index W H (Some el) = None ->
  Qabs (img_width shape * W * (el_height el / el_width el) / H - img_height shape) <= 0.001.
Proof.
  unfold aspectEffect, desiredHByAspect, targetW, Qgtb.
  destruct (Qle_bool _ _) eqn:Hle; simpl; [| discriminate].
  intros _. apply Qle_bool_iff. exact Hle.
Qed.

(** X16.  After the effect of a loaded image has run, the stored height agrees
    with the drawn one: position, source and width of the image are as
    before, and its normalized height times the stage height differs
    from the pixel height it is drawn with by at most a thousandth of
    the stage height. *)
Theorem aspect_effect_settles_height
    (st : State) (index : nat) (img : ImageShape) (el : HTMLImageElement) :
  shapes st !! index = Some (SImage img) ->
  0 < stageH st -> 0 < el_width el ->
  exists img',
    shapes (onImageEffect index (Some el) st) !! index = Some (SImage img')
    /\ (img_src img' = img_src img /\ img_x img' = img_x img
        /\ img_y img' = img_y img /\ img_width img' = img_width img)
    /\ Qabs (ki_height (RenderImageBase img' (stageW st) (stageH st) (Some el))
             - img_height img' * stageH st)
       <= 0.001 * stageH st.
Proof.
  intros Hi HH _. unfold onImageEffect, mountedImage. rewrite Hi.
  destruct (aspectEffect img index (stageW st) (stageH st) (Some el)) as [[i nh] |] eqn:Ha.
  - destruct (aspectEffect_commit _ _ _ _ _ _ _ Ha) as (-> & -> & _).
    unfold commitHeightByAspect. rewrite Hi. cbn [shapes set_shapes].
    eexists. split; [apply list_lookup_insert_eq; eapply lookup_lt_Some; exact Hi |].
    split; [repeat split |].
    unfold RenderImageBase, desiredHByAspect, targetW.
    cbn [ki_height img_width img_height].
    generalize (img_width img * stageW st * (el_height el / el_width el)). intros d.
    assert (E : d - d / stageH st * stageH st == 0) by (field; lra).
    rewrite (Qabs_wd _ _ E). apply Qabs_Qle_condition. split; lra.
  - exists img. split; [exact Hi |]. split; [repeat split |].
    pose proof (aspectEffect_none _ _ _ _ _ Ha) as Hn.
    unfold RenderImageBase, desiredHByAspect, targetW. cbn [ki_height].
    revert Hn.
    generalize (img_width img * stageW st * (el_height el / el_width el)). intros d Hn.
    apply Qabs_Qle_condition in Hn. destruct Hn as [Hn1 Hn2].
    assert (E : d == d / stageH st * stageH st) by (field; lra).
    set (q := d / stageH st) in *. clearbody q.
    apply Qabs_Qle_condition. split; nra.
Qed.

Lemma aspect_effect_settles_height_witness :
  shapes (set_shapes [SImage (mkImageShape "a.png" 0.5 0.5 0.25 0.25)] sample_state) !! 0%nat
  = Some (SImage (mkImageShape "a.png" 0.5 0.5 0.25 0.25))
  /\ 0 < stageH (set_shapes [SImage (mkImageShape "a.png" 0.5 0.5 0.25 0.25)] sample_state)
  /\ 0 < el_width sample_asset
  /\ exists img',
       shapes (onImageEffect 0 (Some sample_asset)
                 (set_shapes [SImage (mkImageShape "a.png" 0.5 0.5 0.25 0.25)] sample_state))
         !! 0%nat = Some (SImage img')
       /\ (img_src img' = img_src (mkImageShape "a.png" 0.5 0.5 0.25 0.25)
           /\ img_x img' = img_x (mkImageShape "a.png" 0.5 0.5 0.25 0.25)
           /\ img_y img' = img_y (mkImageShape "a.png" 0.5 0.5 0.25 0.25)
           /\ img_width img' = img_width (mkImageShape "a.png" 0.5 0.5 0.25 0.25))
       /\ Qabs (ki_height (RenderImageBase img'
                  (stageW (set_shapes [SImage (mkImageShape "a.png" 0.5 0.5 0.25 0.25)]
                             sample_state))
                  (stageH (set_shapes [SImage (mkImageShape "a.png" 0.5 0.5 0.25 0.25)]
                             sample_state))
                  (Some sample_asset))
                - img_height img'
                  * stageH (set_shapes [SImage (mkImageShape "a.png" 0.5 0.5 0.25 0.25)]
                              sample_state))
          <= 0.001 * stageH (set_shapes [SImage (mkImageShape "a.png" 0.5 0.5 0.25 0.25)]
                               sample_state).
Proof.
  assert (HH : 0 < stageH (set_shapes [SImage (mkImageShape "a.png" 0.5 0.5 0.25 0.25)]
                             sample_state)) by (vm_compute; reflexivity).
  assert (He : 0 < el_width sample_asset) by (vm_compute; reflexivity).
  split; [reflexivity |]. split; [exact HH |]. split; [exact He |].
  exact (aspect_effect_settles_height
           (set_shapes [SImage (mkImageShape "a.png" 0.5 0.5 0.25 0.25)] sample_state)
           0 (mkImageShape "a.png" 0.5 0.5 0.25 0.25) sample_asset eq_refl HH He).
Defined.

(** ** Where a dropped image comes from *)

(** X19.  The source of a native drop.  A text payload, when there is one, is
    the source, whatever files come with it.  Without text the first
    file decides, and only the first: an image file read as a string is
    dropped with that string as its source, an image file whose read
    gives no string is ignored. *)
Theorem onDrop_sources
    (e : DragEvent) (ds : DataTransfer) (stageRef : option KonvaStage) (st : State) :
  dataTransfer e = Some ds ->
  (text_plain ds <> EmptyString ->
     onDrop e stageRef st = dropAtPointer (text_plain ds) stageRef e st)
  /\ (forall f rest s,
        text_plain ds = EmptyString -> files ds = f :: rest ->
        String.prefix "image/" (file_type f) = true ->
        file_result f = JSString s ->
        onDrop e stageRef st = dropAtPointer s stageRef e st)
  /\ (forall f rest,
        text_plain ds = EmptyString -> files ds = f :: rest ->
        String.prefix "image/" (file_type f) = true ->
        (forall s, file_result f <> JSString s) ->
        onDrop e stageRef st = st).
Proof.
  intros Hds. unfold onDrop. rewrite Hds. split; [| split].
  - intros Ht. destruct (text_plain ds); [congruence | reflexivity].
  - intros f rest s Ht Hf Hp Hr. rewrite Ht, Hf. simpl. rewrite Hp, Hr. reflexivity.
  - intros f rest Ht Hf Hp Hr. rewrite Ht, Hf. simpl. rewrite Hp.
    destruct (file_result f) as [s | | |]; try reflexivity. destruct (Hr s eq_refl).
Qed.

Lemma onDrop_sources_witness :
  dataTransfer (mkDragEvent 400 300
                  (Some (mkDataTransfer "a.png" [mkFile "text/plain" JSNull])))
  = Some (mkDataTransfer "a.png" [mkFile "text/plain" JSNull])
  /\ text_plain (mkDataTransfer "a.png" [mkFile "text/plain" JSNull]) <> EmptyString
  /\ onDrop (mkDragEvent 400 300
               (Some (mkDataTransfer "a.png" [mkFile "text/plain" JSNull])))
       (Some sample_stage) sample_state
     = dropAtPointer (text_plain (mkDataTransfer "a.png" [mkFile "text/plain" JSNull]))
         (Some sample_stage)
         (mkDragEvent 400 300 (Some (mkDataTransfer "a.png" [mkFile "text/plain" JSNull])))
         sample_state.
Proof.
  assert (Ht : text_plain (mkDataTransfer "a.png" [mkFile "text/plain" JSNull])
               <> EmptyString) by discriminate.
  split; [reflexivity |]. split; [exact Ht |].
  exact (proj1 (onDrop_sources
                  (mkDragEvent 400 300
                     (Some (mkDataTransfer "a.png" [mkFile "text/plain" JSNull])))
                  (mkDataTransfer "a.png" [mkFile "text/plain" JSNull])
                  (Some sample_stage) sample_state eq_refl) Ht).
Defined.

Lemma gallery_src_not_empty (src : string) : src ∈ GALLERY_IMAGES -> src <> EmptyString.
Proof.
  unfold GALLERY_IMAGES. intros Hin.
  repeat (apply elem_of_cons in Hin as [-> | Hin]; [discriminate |]).
  apply elem_of_nil in Hin. destruct Hin.
Qed.

(** X20.  A gallery image dragged onto the stage arrives as itself: the drag
    start puts the image's URL into the text payload, and the drop, at
    an available pointer position, appends one image with that URL as
    source at the normalized drop point, whatever files the drag
    carries besides. *)
Theorem gallery_drag_drops_its_image
    (src : string) (ds0 : DataTransfer) (x y : Q) (stage : KonvaStage)
    (pos : Vector2d) (st : State) :
  src ∈ GALLERY_IMAGES ->
  pointerPositionAt stage (mkDragEvent x y (Some (galleryDragStart src ds0))) = Some pos ->
  shapes (onDrop (mkDragEvent x y (Some (galleryDragStart src ds0))) (Some stage) st)
  = shapes st ++
    [SImage (mkImageShape src (clamp (vx pos / stageW st) 0 1)
               (clamp (vy pos / stageH st) 0 1) 0.25 0.25)].
Proof.
  intros Hin Hp. pose proof (gallery_src_not_empty src Hin) as Hne.
  unfold onDrop, galleryDragStart. cbn [dataTransfer text_plain].
  destruct src as [| c t]; [congruence |]. cbn [String.eqb negb].
  rewrite dropAtPointer_shapes. unfold galleryDragStart in Hp. rewrite Hp. reflexivity.
Qed.

Lemma gallery_drag_drops_its_image_witness :
  "https://picsum.photos/seed/103/240/160"%string ∈ GALLERY_IMAGES
  /\ pointerPositionAt sample_stage
       (mkDragEvent 400 300
          (Some (galleryDragStart "https://picsum.photos/seed/103/240/160"
                   (mkDataTransfer EmptyString [mkFile "image/jpeg" JSNull]))))
     = Some sample_pos
  /\ shapes (onDrop
               (mkDragEvent 400 300
                  (Some (galleryDragStart "https://picsum.photos/seed/103/240/160"
                           (mkDataTransfer EmptyString [mkFile "image/jpeg" JSNull]))))
               (Some sample_stage) sample_state)
     = shapes sample_state ++
       [SImage (mkImageShape "https://picsum.photos/seed/103/240/160"
                  (clamp (vx sample_pos / stageW sample_state) 0 1)
                  (clamp (vy sample_pos / stageH sample_state) 0 1) 0.25 0.25)].
Proof.
  assert (Hin : "https://picsum.photos/seed/103/240/160"%string ∈ GALLERY_IMAGES)
    by (unfold GALLERY_IMAGES; do 2 apply list_elem_of_further; apply list_elem_of_here).
  split; [exact Hin |]. split; [reflexivity |].
  exact (gallery_drag_drops_its_image "https://picsum.photos/seed/103/240/160"
           (mkDataTransfer EmptyString [mkFile "image/jpeg" JSNull]) 400 300
           sample_stage sample_pos sample_state Hin eq_refl).
Defined.

(** X21.  A touch gesture on a gallery image drops it once.  Touch-start
    stores the image's URL in its attribute; touch-end sends it with
    the coordinates of the lifted finger, and the whiteboard drops the
    image there; the attribute is cleared, so a touch-end with no
    touch-start before it sends no source and the whiteboard ignores
    it. *)
Theorem gallery_touch_drops_once
    (src : string) (t0 t1 t2 : Touch) (attr0 : option string)
    (stageRef : option KonvaStage) (st st' : State) :
  src ∈ GALLERY_IMAGES ->
  onMobileDrop (Some (snd (galleryTouchEnd t1 (fst (galleryTouchStart src t0 attr0)))))
    stageRef st
  = dropAtPointer src stageRef
      (mkDragEvent (touch_clientX t1) (touch_clientY t1) None) st
  /\ fst (galleryTouchEnd t1 (fst (galleryTouchStart src t0 attr0))) = None
  /\ onMobileDrop
       (Some (snd (galleryTouchEnd t2
                     (fst (galleryTouchEnd t1 (fst (galleryTouchStart src t0 attr0)))))))
       stageRef st'
     = st'.
Proof.
  intros Hin. pose proof (gallery_src_not_empty src Hin) as Hne.
  split; [| split; reflexivity].
  unfold onMobileDrop. cbn [galleryTouchEnd galleryTouchStart fst snd detail_src
                            detail_x detail_y].
  destruct src as [| c t]; [congruence | reflexivity].
Qed.

Lemma gallery_touch_drops_once_witness :
  "https://picsum.photos/seed/101/240/160"%string ∈ GALLERY_IMAGES
  /\ onMobileDrop
       (Some (snd (galleryTouchEnd (mkTouch 400 300)
                     (fst (galleryTouchStart "https://picsum.photos/seed/101/240/160"
                             (mkTouch 20 20) None)))))
       (Some sample_stage) sample_state
     = dropAtPointer "https://picsum.photos/seed/101/240/160" (Some sample_stage)
         (mkDragEvent (touch_clientX (mkTouch 400 300)) (touch_clientY (mkTouch 400 300)) None)
         sample_state.
Proof.
  assert (Hin : "https://picsum.photos/seed/101/240/160"%string ∈ GALLERY_IMAGES)
    by (unfold GALLERY_IMAGES; apply list_elem_of_here).
  split; [exact Hin |].
  exact (proj1 (gallery_touch_drops_once "https://picsum.photos/seed/101/240/160"
                  (mkTouch 20 20) (mkTouch 400 300) (mkTouch 0 0) None
                  (Some sample_stage) sample_state sample_state Hin)).
Defined.

Lemma clamp_half (a W : Q) : 0 < W -> clamp ((a + W / 2 - a) / W) 0 1 == 1 # 2.
Proof.
  intros HW.
  assert (E : (a + W / 2 - a) / W == 1 # 2) by (field; lra).
  rewrite (clamp_inside _ 0 1); [exact E | rewrite E; lra].
Qed.

(** X22.  The upload control and the whiteboard's callback.  With no file
    chosen, with the whiteboard unmounted, or with a read that gives no
    string, nothing happens.  Otherwise, when the stage reports pointer
    positions relative to the container's rectangle, the file's data URL
    is placed as an image at the middle of the stage, normalized
    (1/2, 1/2); the file's MIME type is not looked at. *)
Theorem upload_places_at_centre
    (fs : list File) (rect : option DOMRect) (stageRef : option KonvaStage) (st : State) :
  galleryUpload [] (uploadBridge true rect stageRef) st = st
  /\ galleryUpload fs (uploadBridge false rect stageRef) st = st
  /\ (forall f rest,
        fs = f :: rest -> (forall s, file_result f <> JSString s) ->
        galleryUpload fs (uploadBridge true rect stageRef) st = st)
  /\ (forall f rest s r stage,
        fs = f :: rest -> file_result f = JSString s ->
        rect = Some r -> stageRef = Some stage ->
        (forall e, pointerPositionAt stage e
                   = Some (mkVector2d (clientX e - dom_left r) (clientY e - dom_top r))) ->
        0 < stageW st -> 0 < stageH st ->
        exists img,
          shapes (galleryUpload fs (uploadBridge true rect stageRef) st)
          = shapes st ++ [SImage img]
          /\ img_src img = s
          /\ img_x img == 1 # 2 /\ img_y img == 1 # 2
          /\ img_width img = 0.25 /\ img_height img = 0.25).
Proof.
  split; [reflexivity |]. split; [| split].
  - unfold galleryUpload, uploadBridge. destruct (fs !! 0%nat); reflexivity.
  - intros f rest -> Hr. unfold galleryUpload, uploadBridge. simpl.
    destruct (file_result f) as [s | | |]; try reflexivity. destruct (Hr s eq_refl).
  - intros f rest s r stage -> Hr -> -> Hstage HW HH.
    unfold galleryUpload, uploadBridge. cbn [lookup list_lookup]. rewrite Hr.
    unfold dropImageFromUpload. rewrite dropAtPointer_shapes. rewrite Hstage.
    cbn [clientX clientY vx vy].
    eexists. split; [reflexivity |]. cbn [img_src img_x img_y img_width img_height].
    split; [reflexivity |].
    split; [apply clamp_half; exact HW |].
    split; [apply clamp_half; exact HH |]. split; reflexivity.
Qed.

Lemma upload_places_at_centre_witness :
  file_result (mkFile "application/pdf" (JSString "data:application/pdf;base64,AAAA"))
  = JSString "data:application/pdf;base64,AAAA"
  /\ (forall e, pointerPositionAt
                  (mkKonvaStage (fun e => Some (mkVector2d (clientX e - dom_left (mkDOMRect 12 150))
                                                  (clientY e - dom_top (mkDOMRect 12 150)))))
                  e
                = Some (mkVector2d (clientX e - dom_left (mkDOMRect 12 150))
                          (clientY e - dom_top (mkDOMRect 12 150))))
  /\ (0 < stageW sample_state /\ 0 < stageH sample_state)
  /\ exists img,
       shapes (galleryUpload
                 [mkFile "application/pdf" (JSString "data:application/pdf;base64,AAAA")]
                 (uploadBridge true (Some (mkDOMRect 12 150))
                    (Some (mkKonvaStage
                             (fun e => Some (mkVector2d (clientX e - dom_left (mkDOMRect 12 150))
                                               (clientY e - dom_top (mkDOMRect 12 150)))))))
                 sample_state)
       = shapes sample_state ++ [SImage img]
       /\ img_src img = "data:application/pdf;base64,AAAA"%string
       /\ img_x img == 1 # 2 /\ img_y img == 1 # 2
       /\ img_width img = 0.25 /\ img_height img = 0.25.
Proof.
  assert (HW : 0 < stageW sample_state) by (vm_compute; reflexivity).
  assert (HH : 0 < stageH sample_state) by (vm_compute; reflexivity).
  split; [reflexivity |]. split; [intros e; reflexivity |]. split; [split; assumption |].
  exact (proj2 (proj2 (proj2
    (upload_places_at_centre
       [mkFile "application/pdf" (JSString "data:application/pdf;base64,AAAA")]
       (Some (mkDOMRect 12 150))
       (Some (mkKonvaStage
                (fun e => Some (mkVector2d (clientX e - dom_left (mkDOMRect 12 150))
                                  (clientY e - dom_top (mkDOMRect 12 150))))))
       sample_state)))
    _ [] _ _ _ eq_refl eq_refl eq_refl eq_refl (fun e => eq_refl) HW HH).
Defined.

(** ** What an event touches *)

(** X23.  Each event writes its own part of the state and no other.  The
    selected tool changes with the tool buttons only.  The drawing flag
    is set by a pointer-down with a stroke tool, position or not,
    cleared by pointer-up, and kept by everything else, a change of tool
    included.  Viewport and modal size change with the two sizing events
    only, and these, the tool buttons and pointer-up leave the store
    alone. *)
Theorem event_frames (st : State) (ev : Event) :
  toolActive (step st ev)
  = match ev with EvSetTool t => t | _ => toolActive st end
  /\ isDrawing (step st ev)
     = match ev with
       | EvMouseDown _ => isStrokeTool (toolActive st) || isDrawing st
       | EvMouseUp => false
       | _ => isDrawing st
       end
  /\ match ev with
     | EvResizeStop _ _ => windowW (step st ev) = windowW st /\ windowH (step st ev) = windowH st
     | EvViewport w h => windowW (step st ev) = w /\ windowH (step st ev) = h
     | _ => st_size (step st ev) = st_size st
            /\ windowW (step st ev) = windowW st /\ windowH (step st ev) = windowH st
     end
  /\ match ev with
     | EvSetTool _ | EvMouseUp | EvResizeStop _ _ | EvViewport _ _ =>
         shapes (step st ev) = shapes st
     | _ => True
     end.
Proof.
  split; [| split; [| split]].
  - destruct ev; simpl; try reflexivity; handler_cases; reflexivity.
  - destruct ev; simpl; try reflexivity.
    + unfold onMouseDown. destruct (isStrokeTool (toolActive st)); simpl;
        [destruct pointer; reflexivity | reflexivity].
    + handler_cases; reflexivity.
    + handler_cases; reflexivity.
    + handler_cases; reflexivity.
    + handler_cases; reflexivity.
    + handler_cases; reflexivity.
    + handler_cases; reflexivity.
  - pose proof (step_size_frame st ev) as Hf.
    destruct ev; try exact Hf; split; reflexivity.
  - destruct ev; try exact I; reflexivity.
Qed.
